(** * Crash game backend: a shallow embedding of [main.py] and its properties

    The development follows the source file top-down:
    - [Sha256], [Hmac]: the digest behind [hmac.new(key, b"crash", hashlib.sha256)];
    - [PyStr]: Python [str] values as sequences of code points, [str.encode()];
    - [PyFloat]: the float operations of the source ([max], [min], [/], [round(_, 2)])
      on binary64 numbers;
    - [crash_point_from_seed];
    - the persistence collaborator and the request handlers, in a state monad over
      the world a handler runs in (clock, entropy, store);
    - the routes in sequence ([handle], [serve]) and the diagnosis
      ([test_database]);
    - the properties, one theorem per claim, then what the handlers keep over
      any sequence of requests, how they compose, and their edge cases. *)

From Stdlib Require Import ZArith NArith List String Ascii Bool Lia.
From Stdlib Require Strings.Byte.
From Stdlib Require Import Floats.
Import ListNotations.

Set Warnings "-inexact-float".

Local Open Scope Z_scope.

(* ------------------------------------------------------------------------- *)
(** ** SHA-256 (FIPS 180-4), on 32-bit words held in [Z] *)

Module Sha256.

Definition word := Z.

Definition wrap32 (x : Z) : word := x mod 2 ^ 32.

Definition add32 (x y : word) : word := wrap32 (x + y).

Definition rotr (n : Z) (x : word) : word :=
  Z.lor (Z.shiftr x n) (wrap32 (Z.shiftl x (32 - n))).

Definition not32 (x : word) : word := Z.lxor x (2 ^ 32 - 1).

Definition Ch (x y z : word) : word :=
  Z.lxor (Z.land x y) (Z.land (not32 x) z).

Definition Maj (x y z : word) : word :=
  Z.lxor (Z.lxor (Z.land x y) (Z.land x z)) (Z.land y z).

Definition bsig0 (x : word) : word :=
  Z.lxor (Z.lxor (rotr 2 x) (rotr 13 x)) (rotr 22 x).

Definition bsig1 (x : word) : word :=
  Z.lxor (Z.lxor (rotr 6 x) (rotr 11 x)) (rotr 25 x).

Definition ssig0 (x : word) : word :=
  Z.lxor (Z.lxor (rotr 7 x) (rotr 18 x)) (Z.shiftr x 3).

Definition ssig1 (x : word) : word :=
  Z.lxor (Z.lxor (rotr 17 x) (rotr 19 x)) (Z.shiftr x 10).

(** The round constants, eight per row. *)
Definition K : list word :=
  [0x428a2f98; 0x71374491; 0xb5c0fbcf; 0xe9b5dba5] ++ [0x3956c25b; 0x59f111f1; 0x923f82a4; 0xab1c5ed5] ++
  [0xd807aa98; 0x12835b01; 0x243185be; 0x550c7dc3] ++ [0x72be5d74; 0x80deb1fe; 0x9bdc06a7; 0xc19bf174] ++
  [0xe49b69c1; 0xefbe4786; 0x0fc19dc6; 0x240ca1cc] ++ [0x2de92c6f; 0x4a7484aa; 0x5cb0a9dc; 0x76f988da] ++
  [0x983e5152; 0xa831c66d; 0xb00327c8; 0xbf597fc7] ++ [0xc6e00bf3; 0xd5a79147; 0x06ca6351; 0x14292967] ++
  [0x27b70a85; 0x2e1b2138; 0x4d2c6dfc; 0x53380d13] ++ [0x650a7354; 0x766a0abb; 0x81c2c92e; 0x92722c85] ++
  [0xa2bfe8a1; 0xa81a664b; 0xc24b8b70; 0xc76c51a3] ++ [0xd192e819; 0xd6990624; 0xf40e3585; 0x106aa070] ++
  [0x19a4c116; 0x1e376c08; 0x2748774c; 0x34b0bcb5] ++ [0x391c0cb3; 0x4ed8aa4a; 0x5b9cca4f; 0x682e6ff3] ++
  [0x748f82ee; 0x78a5636f; 0x84c87814; 0x8cc70208] ++ [0x90befffa; 0xa4506ceb; 0xbef9a3f7; 0xc67178f2].

(** The chaining value: eight words, so that the digest has 32 bytes by
    construction. *)
Record state : Type := mkState {
  ha : word; hb : word; hc : word; hd : word;
  he : word; hf : word; hg : word; hh : word
}.

Definition init : state :=
  mkState 0x6a09e667 0xbb67ae85 0x3c6ef372 0xa54ff53a
          0x510e527f 0x9b05688c 0x1f83d9ab 0x5be0cd19.

Definition byteZ (b : Byte.byte) : Z := Z.of_N (Byte.to_N b).

Definition Zbyte (z : Z) : Byte.byte :=
  match Byte.of_N (Z.to_N (z mod 256)) with
  | Some b => b
  | None => Byte.x00
  end.

(** Big-endian bytes of a number: [be_bytes n z] is the [n] low bytes of [z],
    most significant first. *)
Fixpoint be_bytes (n : nat) (z : Z) : list Byte.byte :=
  match n with
  | O => []
  | S n' => Zbyte (Z.shiftr z (8 * Z.of_nat n')) :: be_bytes n' z
  end.

(** Padding: a [0x80] byte, zero bytes up to 56 modulo 64, then the bit
    length on 64 bits. *)
Definition pad (msg : list Byte.byte) : list Byte.byte :=
  let len := Z.of_nat (List.length msg) in
  let zeros := Z.to_nat ((55 - len) mod 64) in
  msg ++ Byte.x80 :: repeat Byte.x00 zeros ++ be_bytes 8 (8 * len).

Fixpoint be_word (bs : list Byte.byte) (acc : Z) : Z :=
  match bs with
  | [] => acc
  | b :: bs' => be_word bs' (acc * 256 + byteZ b)
  end.

(** The sixteen message words of a 64-byte block. *)
Fixpoint block_words (n : nat) (bs : list Byte.byte) : list word :=
  match n with
  | O => []
  | S n' => be_word (firstn 4 bs) 0 :: block_words n' (skipn 4 bs)
  end.

(** The message schedule, kept newest-first while it grows:
    [W_t = ssig1(W_{t-2}) + W_{t-7} + ssig0(W_{t-15}) + W_{t-16}]. *)
Fixpoint extend (n : nat) (rev_w : list word) : list word :=
  match n with
  | O => rev_w
  | S n' =>
      let wt := add32 (add32 (ssig1 (nth 1 rev_w 0)) (nth 6 rev_w 0))
                      (add32 (ssig0 (nth 14 rev_w 0)) (nth 15 rev_w 0)) in
      extend n' (wt :: rev_w)
  end.

Definition schedule (bs : list Byte.byte) : list word :=
  rev (extend 48 (rev (block_words 16 bs))).

Definition round (s : state) (kw : word * word) : state :=
  let '(k, w) := kw in
  let t1 := add32 (add32 (add32 (hh s) (bsig1 (he s))) (Ch (he s) (hf s) (hg s)))
                  (add32 k w) in
  let t2 := add32 (bsig0 (ha s)) (Maj (ha s) (hb s) (hc s)) in
  mkState (add32 t1 t2) (ha s) (hb s) (hc s) (add32 (hd s) t1) (he s) (hf s) (hg s).

Definition compress (s : state) (bs : list Byte.byte) : state :=
  let t := fold_left round (combine K (schedule bs)) s in
  mkState (add32 (ha s) (ha t)) (add32 (hb s) (hb t))
          (add32 (hc s) (hc t)) (add32 (hd s) (hd t))
          (add32 (he s) (he t)) (add32 (hf s) (hf t))
          (add32 (hg s) (hg t)) (add32 (hh s) (hh t)).

(** Block after block; [fuel] bounds the number of blocks. *)
Fixpoint blocks (fuel : nat) (s : state) (bs : list Byte.byte) : state :=
  match fuel, bs with
  | S fuel', _ :: _ => blocks fuel' (compress s (firstn 64 bs)) (skipn 64 bs)
  | _, _ => s
  end.

Definition hash_state (msg : list Byte.byte) : state :=
  let p := pad msg in blocks (List.length p) init p.

Definition state_words (s : state) : list word :=
  [ha s; hb s; hc s; hd s; he s; hf s; hg s; hh s].

Definition digest (msg : list Byte.byte) : list Byte.byte :=
  flat_map (be_bytes 4) (state_words (hash_state msg)).

End Sha256.

(* ------------------------------------------------------------------------- *)
(** ** HMAC (RFC 2104) with SHA-256, as [hmac.new(key, msg, hashlib.sha256)] *)

Module Hmac.

Definition block_size : nat := 64.

Definition xor_byte (c : Z) (b : Byte.byte) : Byte.byte :=
  Sha256.Zbyte (Z.lxor (Sha256.byteZ b) c).

(** A key longer than a block is hashed first; the key is then zero-padded to
    the block size. *)
Definition block_key (key : list Byte.byte) : list Byte.byte :=
  let k := if (block_size <? List.length key)%nat then Sha256.digest key else key in
  k ++ repeat Byte.x00 (block_size - List.length k).

Definition inner_state (key msg : list Byte.byte) : Sha256.state :=
  Sha256.hash_state (map (xor_byte 0x36) (block_key key) ++ msg).

Definition hmac_state (key msg : list Byte.byte) : Sha256.state :=
  Sha256.hash_state
    (map (xor_byte 0x5c) (block_key key) ++
     flat_map (Sha256.be_bytes 4) (Sha256.state_words (inner_state key msg))).

End Hmac.

(* ------------------------------------------------------------------------- *)
(** ** Exceptions: a handler either returns a value or raises *)

Inductive exn : Type :=
| UnicodeEncodeError
| ValueError
| ZeroDivisionError
| InvalidId
| StoreError.

Inductive result (A : Type) : Type :=
| Ok (a : A)
| Raise (e : exn).

Arguments Ok {A} a.
Arguments Raise {A} e.

Definition rbind {A B : Type} (r : result A) (k : A -> result B) : result B :=
  match r with
  | Ok a => k a
  | Raise e => Raise e
  end.

Declare Scope result_scope.
Delimit Scope result_scope with result.
Notation "x <- r ;; k" := (rbind r (fun x => k))
  (at level 61, r at next level, right associativity) : result_scope.

(* ------------------------------------------------------------------------- *)
(** ** Python [str]: a sequence of Unicode code points *)

Module PyStr.

Definition pystr := list Z.

(** An ASCII literal of the source as a [pystr]. *)
Definition lit (s : string) : pystr :=
  map Sha256.byteZ (list_byte_of_string s).

Fixpoint eqb (a b : pystr) : bool :=
  match a, b with
  | [], [] => true
  | x :: a', y :: b' => (x =? y) && eqb a' b'
  | _, _ => false
  end.

Definition is_surrogate (c : Z) : bool := (0xD800 <=? c) && (c <=? 0xDFFF).

(** UTF-8 of one code point; [None] where [str.encode()] raises
    [UnicodeEncodeError] (a surrogate), or where [c] is no code point at all. *)
Definition utf8_char (c : Z) : option (list Byte.byte) :=
  let cont (z : Z) := Sha256.Zbyte (Z.lor 0x80 (Z.land z 0x3F)) in
  if c <? 0 then None
  else if c <? 0x80 then Some [Sha256.Zbyte c]
  else if c <? 0x800 then
    Some [Sha256.Zbyte (Z.lor 0xC0 (Z.shiftr c 6)); cont c]
  else if c <? 0x10000 then
    if is_surrogate c then None
    else Some [Sha256.Zbyte (Z.lor 0xE0 (Z.shiftr c 12)); cont (Z.shiftr c 6); cont c]
  else if c <? 0x110000 then
    Some [Sha256.Zbyte (Z.lor 0xF0 (Z.shiftr c 18)); cont (Z.shiftr c 12);
          cont (Z.shiftr c 6); cont c]
  else None.

(** [s.encode()] with the default codec (UTF-8, strict). *)
Fixpoint encode (s : pystr) : result (list Byte.byte) :=
  match s with
  | [] => Ok []
  | c :: s' =>
      match utf8_char c with
      | None => Raise UnicodeEncodeError
      | Some bs => rbind (encode s') (fun rest => Ok (bs ++ rest))
      end
  end.

(** The lowercase hexadecimal digit of a nibble, as a code point. *)
Definition hex_digit (d : Z) : Z := if d <? 10 then 48 + d else 87 + d.

Definition nibbles (b : Byte.byte) : list Z :=
  [Sha256.byteZ b / 16; Sha256.byteZ b mod 16].

(** [bytes.hex()], which is what [hexdigest()] returns of the digest. *)
Definition hex (bs : list Byte.byte) : pystr :=
  map hex_digit (flat_map nibbles bs).

Definition hex_val (c : Z) : option Z :=
  if (48 <=? c) && (c <=? 57) then Some (c - 48)
  else if (97 <=? c) && (c <=? 102) then Some (c - 87)
  else if (65 <=? c) && (c <=? 70) then Some (c - 55)
  else None.

Fixpoint int16_digits (s : pystr) (acc : Z) : result Z :=
  match s with
  | [] => Ok acc
  | c :: s' =>
      match hex_val c with
      | Some d => int16_digits s' (16 * acc + d)
      | None => Raise ValueError
      end
  end.

(** [int(s, 16)] on digit strings: the empty string and any character that is
    not a hexadecimal digit raise [ValueError].  (Python also accepts a sign,
    surrounding whitespace, a [0x] prefix and underscores; those forms are
    rejected here, which can only make this model raise more often.) *)
Definition int16 (s : pystr) : result Z :=
  match s with
  | [] => Raise ValueError
  | _ => int16_digits s 0
  end.

End PyStr.

Abbreviation pystr := PyStr.pystr.

(* ------------------------------------------------------------------------- *)
(** ** Python [float]: IEEE 754 binary64, as Rocq's primitive floats *)

Module PyFloat.

Local Open Scope float_scope.

(** [float(n)] for an integer [n]: the nearest binary64 number. *)
Definition of_int (n : Z) : float :=
  SF2Prim (binary_normalize prec emax n 0%Z false).

(** [max(a, b)]: the first argument unless the second is greater. *)
Definition max (a b : float) : float := if a <? b then b else a.

(** [min(a, b)]: the first argument unless the second is smaller. *)
Definition min (a b : float) : float := if b <? a then b else a.

(** [a / b]: raises [ZeroDivisionError] on a zero divisor. *)
Definition truediv (a b : float) : result float :=
  if is_zero b then Raise ZeroDivisionError else Ok (a / b).

(** The integer nearest to [a / b] ([b > 0]), ties to the even one. *)
Definition div_half_even (a b : Z) : Z :=
  let q := (a / b)%Z in
  let r := (a mod b)%Z in
  match (2 * r ?= b)%Z with
  | Lt => q
  | Gt => (q + 1)%Z
  | Eq => if Z.even q then q else (q + 1)%Z
  end.

(** The integer nearest to [100 * (m * 2^e)], ties to even: the digits that
    CPython's correctly rounded [dtoa] keeps for two decimals. *)
Definition cents (m : positive) (e : Z) : Z :=
  if (0 <=? e)%Z then (Zpos m * 100 * 2 ^ e)%Z
  else div_half_even (Zpos m * 100) (2 ^ (- e)).

(** [round(x, 2)] as CPython computes it: the exact value of [x] is rounded to
    two decimals (ties to even), and the decimal obtained is converted back to
    the nearest binary64 number; [nan], infinities and zeros round to
    themselves. *)
Definition round2 (x : float) : float :=
  match Prim2SF x with
  | S754_finite s m e =>
      match cents m e with
      | Zpos n => SF2Prim (SFdiv prec emax (S754_finite s n 0) (S754_finite false 100 0))
      | _ => SF2Prim (S754_zero s)
      end
  | _ => x
  end.

End PyFloat.

(* ------------------------------------------------------------------------- *)
(** ** [crash_point_from_seed] *)

Section CrashPoint.

Local Open Scope result_scope.
Local Open Scope float_scope.

(** [hmac.new(key, b"crash", hashlib.sha256).hexdigest()] *)
Definition hexdigest (key : list Byte.byte) : pystr :=
  PyStr.hex (flat_map (Sha256.be_bytes 4)
               (Sha256.state_words (Hmac.hmac_state key (list_byte_of_string "crash")))).

Definition crash_point_from_seed (server_seed : pystr) : result float :=
  key <- PyStr.encode server_seed ;;
  let digest := hexdigest key in
  r <- PyStr.int16 (firstn 13 digest) ;;
  let r := if (r =? 0)%Z then 1%Z else r in
  x <- PyFloat.truediv (PyFloat.of_int (r mod 2 ^ 52)) (PyFloat.of_int (2 ^ 52)) ;;
  m <- PyFloat.truediv 1.0 (PyFloat.max 1e-9 (1.0 - x)) ;;
  let m := PyFloat.max 1.01 (PyFloat.min m 50.0) in
  Ok (PyFloat.round2 m).

End CrashPoint.

(* ------------------------------------------------------------------------- *)
(** ** Data model: the documents of [schemas.py] and the messages of [main.py] *)

(** A document's [_id]: an [ObjectId] (12 bytes, here a number below [2^96])
    or, for a document stored under one, a plain string. *)
Inductive docid : Type :=
| ObjId (n : Z)
| StrId (s : pystr).

Definition docid_eqb (a b : docid) : bool :=
  match a, b with
  | ObjId n, ObjId m => (n =? m)%Z
  | StrId s, StrId t => PyStr.eqb s t
  | _, _ => false
  end.

(** [str(_id)]: 24 lowercase hexadecimal digits for an [ObjectId]. *)
Definition docid_str (i : docid) : pystr :=
  match i with
  | ObjId n => PyStr.hex (Sha256.be_bytes 12 n)
  | StrId s => s
  end.

Module CrashRound.
Record t : Type := mk {
  server_seed : pystr;
  start_time : float;
  crash_at : float;
  k : float;
  status : pystr
}.
Definition set_status (s : pystr) (r : t) : t :=
  mk (server_seed r) (start_time r) (crash_at r) (k r) s.
End CrashRound.

Module CrashBet.
Record t : Type := mk {
  round_id : pystr;
  player_id : pystr;
  amount : float;
  auto_cashout : option float;
  cashed_out_at : option float;
  profit : option float
}.
Definition settle (m p : float) (b : t) : t :=
  mk (round_id b) (player_id b) (amount b) (auto_cashout b) (Some m) (Some p).
End CrashBet.

Module CreateRoundRequest.
Record t : Type := mk { k : option float; delay_seconds : option float }.
(** [CreateRoundRequest()]: the declared defaults. *)
Definition default : t := mk (Some 0.25%float) (Some 2.0%float).
End CreateRoundRequest.

Module RoundInfo.
Record t : Type := mk {
  id : pystr;
  start_time : float;
  crash_at : float;
  status : pystr
}.
Inductive value : Type :=
| Str (s : pystr)
| Num (x : float).
(** The response body serialised from the model: every declared field, under
    its name. *)
Definition body (r : t) : list (string * value) :=
  [("id"%string, Str (id r)); ("start_time"%string, Num (start_time r));
   ("crash_at"%string, Num (crash_at r)); ("status"%string, Str (status r))].
Fixpoint field (key : string) (b : list (string * value)) : option value :=
  match b with
  | [] => None
  | (k, v) :: b' => if String.eqb k key then Some v else field key b'
  end.
End RoundInfo.

Module PlaceBetRequest.
Record t : Type := mk {
  player_id : pystr;
  amount : float;
  auto_cashout : option float
}.
End PlaceBetRequest.

Module CashoutRequest.
Record t : Type := mk { player_id : pystr }.
End CashoutRequest.

(* ------------------------------------------------------------------------- *)
(** ** The world a handler runs in *)

(** The two collections, each in insertion order. *)
Record Store : Type := mkStore {
  crashround : list (docid * CrashRound.t);
  crashbet : list (docid * CrashBet.t)
}.

Record World : Type := mkWorld {
  now : float;            (* what [time.time()] returns *)
  entropy : list Z;       (* the random numbers [uuid4()] will draw, in order *)
  next_oid : Z;           (* the [ObjectId] the store gives the next document *)
  db : option Store;      (* [None]: the module-level [db] is [None] *)
  faults : list bool      (* for each coming store call, whether it raises *)
}.

(** State and exceptions: a computation returns or raises, and leaves a world
    behind either way (what a [try] block did before raising stays done). *)
Definition M (A : Type) : Type := World -> result A * World.

Definition ret {A : Type} (a : A) : M A := fun w => (Ok a, w).

Definition raise {A : Type} (e : exn) : M A := fun w => (Raise e, w).

Definition bind {A B : Type} (m : M A) (f : A -> M B) : M B :=
  fun w =>
    match m w with
    | (Ok a, w') => f a w'
    | (Raise e, w') => (Raise e, w')
    end.

(** [try: m  except Exception: h] *)
Definition try_except {A : Type} (m h : M A) : M A :=
  fun w =>
    match m w with
    | (Ok a, w') => (Ok a, w')
    | (Raise _, w') => h w'
    end.

Definition lift {A : Type} (r : result A) : M A := fun w => (r, w).

Declare Scope handler_scope.
Delimit Scope handler_scope with handler.
Notation "x <- m ;; f" := (bind m (fun x => f))
  (at level 61, m at next level, right associativity) : handler_scope.
Notation "m ;;; f" := (bind m (fun _ => f))
  (at level 61, right associativity) : handler_scope.

Local Open Scope handler_scope.

Definition get_db : M (option Store) := fun w => (Ok (db w), w).

Definition put_store (s : Store) : M unit :=
  fun w => (Ok tt, mkWorld (now w) (entropy w) (next_oid w) (Some s) (faults w)).

(** [time.time()] *)
Definition time : M float := fun w => (Ok (now w), w).

(** [uuid4().hex]: 128 random bits with the version and variant bits forced,
    as 32 hexadecimal digits. *)
Definition uuid4_int (z : Z) : Z :=
  let i := z mod 2 ^ 128 in
  let i := Z.lor (Z.land i (Z.lnot (Z.shiftl 0xc000 48))) (Z.shiftl 0x8000 48) in
  Z.lor (Z.land i (Z.lnot (Z.shiftl 0xf000 64))) (Z.shiftl 4 76).

Definition uuid4_hex : M pystr :=
  fun w =>
    (Ok (PyStr.hex (Sha256.be_bytes 16 (uuid4_int (hd 0 (entropy w))))),
     mkWorld (now w) (tl (entropy w)) (next_oid w) (db w) (faults w)).

(** [x or d] for an optional float: [None] and zero are falsy. *)
Definition or_else (x : option float) (d : float) : float :=
  match x with
  | Some v => if is_zero v then d else v
  | None => d
  end.

(* ------------------------------------------------------------------------- *)
(** ** The persistence collaborator ([database.py], whose source is not at hand) *)

(** Modelled from the spec: the [db] handle of [database.py] is missing;
    the spec has a persistence collaborator that may be unreachable, so every
    call first consults the next entry of [faults] and raises when it is set. *)
Definition store_call : M unit :=
  fun w =>
    let w' := mkWorld (now w) (entropy w) (next_oid w) (db w) (tl (faults w)) in
    if hd false (faults w) then (Raise StoreError, w') else (Ok tt, w').

(** Modelled from the spec: the opaque id the store gives an inserted
    document, missing with [database.py]; an [ObjectId] from a counter. *)
Definition fresh_oid : M docid :=
  fun w =>
    (Ok (ObjId (next_oid w)),
     mkWorld (now w) (entropy w) (next_oid w + 1) (db w) (faults w)).

(** Modelled from the spec: [create_document("crashround", data)] of the
    missing [database.py].  It raises when there is no database or the store
    is unreachable, and otherwise appends the document under a new id and
    returns that id as a string. *)
Definition create_document_round (data : CrashRound.t) : M pystr :=
  d <- get_db ;;
  match d with
  | None => raise StoreError
  | Some s =>
      store_call ;;;
      i <- fresh_oid ;;
      put_store (mkStore (crashround s ++ [(i, data)]) (crashbet s)) ;;;
      ret (docid_str i)
  end.

(** Modelled from the spec: [create_document("crashbet", data)], likewise. *)
Definition create_document_bet (data : CrashBet.t) : M pystr :=
  d <- get_db ;;
  match d with
  | None => raise StoreError
  | Some s =>
      store_call ;;;
      i <- fresh_oid ;;
      put_store (mkStore (crashround s) (crashbet s ++ [(i, data)])) ;;;
      ret (docid_str i)
  end.

(** [status in ["scheduled", "running"]] *)
Definition is_active (st : pystr) : bool :=
  PyStr.eqb st (PyStr.lit "scheduled") || PyStr.eqb st (PyStr.lit "running").

(** [db["crashround"].find({"status": {"$in": [...]}}).sort("start_time", -1).limit(1)]:
    the scheduled or running round with the greatest start time (the earliest
    stored among equals). *)
Fixpoint newest_active (docs : list (docid * CrashRound.t))
    (best : option (docid * CrashRound.t)) : option (docid * CrashRound.t) :=
  match docs with
  | [] => best
  | (i, r) :: docs' =>
      let best' :=
        if is_active (CrashRound.status r) then
          match best with
          | None => Some (i, r)
          | Some (_, b) =>
              if (CrashRound.start_time b <? CrashRound.start_time r)%float
              then Some (i, r) else best
          end
        else best in
      newest_active docs' best'
  end.

(** [update_one({"_id": i}, {"$set": ...})]: changes the first document
    stored under [i], if there is one. *)
Fixpoint update_one {D : Type} (i : docid) (f : D -> D) (docs : list (docid * D))
    : list (docid * D) :=
  match docs with
  | [] => []
  | (j, d) :: docs' =>
      if docid_eqb j i then (j, f d) :: docs' else (j, d) :: update_one i f docs'
  end.

(** Modelled from the spec:
    [find_one({"round_id": r, "player_id": p}, sort=[("created_at", -1)])].
    The [created_at] stamp is written by the missing [create_document]; the
    collection is kept in placement order, and the most recently placed bet
    of the player on the round is the one found. *)
Fixpoint latest_bet (r p : pystr) (docs : list (docid * CrashBet.t))
    (best : option (docid * CrashBet.t)) : option (docid * CrashBet.t) :=
  match docs with
  | [] => best
  | (i, b) :: docs' =>
      latest_bet r p docs'
        (if PyStr.eqb (CrashBet.round_id b) r && PyStr.eqb (CrashBet.player_id b) p
         then Some (i, b) else best)
  end.

(** [ObjectId(s)] for a string: 24 hexadecimal digits, or [InvalidId]. *)
Definition object_id (s : pystr) : result docid :=
  if (List.length s =? 24)%nat then
    match PyStr.int16 s with
    | Ok n => Ok (ObjId n)
    | Raise _ => Raise InvalidId
    end
  else Raise InvalidId.

(* ------------------------------------------------------------------------- *)
(** ** The request handlers of [main.py] *)

Definition scheduled : pystr := PyStr.lit "scheduled".
Definition running : pystr := PyStr.lit "running".
Definition crashed : pystr := PyStr.lit "crashed".

(** [POST /api/round] *)
Definition create_round (req : CreateRoundRequest.t) : M RoundInfo.t :=
  server_seed <- uuid4_hex ;;
  crash_at <- lift (crash_point_from_seed server_seed) ;;
  t <- time ;;
  let start_time := (t + or_else (CreateRoundRequest.delay_seconds req) 0)%float in
  let k := or_else (CreateRoundRequest.k req) 0.25%float in
  let data := CrashRound.mk server_seed start_time crash_at k scheduled in
  round_id <- try_except (create_document_round data) uuid4_hex ;;
  ret (RoundInfo.mk round_id start_time crash_at scheduled).

(** [GET /api/round/current] *)
Definition get_current_round : M RoundInfo.t :=
  d <- get_db ;;
  found <-
    match d with
    | Some s =>
        try_except
          (store_call ;;;
           match newest_active (crashround s) None with
           | Some (i, doc) =>
               ret (Some (RoundInfo.mk (docid_str i) (CrashRound.start_time doc)
                            (CrashRound.crash_at doc) (CrashRound.status doc)))
           | None => ret None
           end)
          (ret None)
    | None => ret None
    end ;;
  match found with
  | Some info => ret info
  | None => create_round CreateRoundRequest.default
  end.

(** [POST /api/round/{round_id}/status]; the response is [{"ok": True}]. *)
Definition update_round_status (round_id status : pystr) : M bool :=
  d <- get_db ;;
  match d with
  | Some s =>
      try_except
        (i <- lift (if (List.length round_id =? 24)%nat then object_id round_id
                    else Ok (StrId round_id)) ;;
         store_call ;;;
         put_store (mkStore (update_one i (CrashRound.set_status status) (crashround s))
                            (crashbet s)))
        (ret tt)
  | None => ret tt
  end ;;;
  ret true.

(** [POST /api/round/{round_id}/bet]; the response is [{"bet_id": ...}]. *)
Definition place_bet (round_id : pystr) (req : PlaceBetRequest.t) : M pystr :=
  let data := CrashBet.mk round_id (PlaceBetRequest.player_id req)
                (PlaceBetRequest.amount req) (PlaceBetRequest.auto_cashout req)
                None None in
  d <- get_db ;;
  bet_id <-
    match d with
    | Some _ => try_except (i <- create_document_bet data ;; ret (Some i)) (ret None)
    | None => ret None
    end ;;
  match bet_id with
  | Some ((_ :: _) as i) => ret i
  | _ => uuid4_hex
  end.

(** [round(amount * max(0.0, at_multiplier - 1.0), 2)] *)
Definition cashout_profit (amount at_multiplier : float) : float :=
  PyFloat.round2 (amount * PyFloat.max 0.0 (at_multiplier - 1.0))%float.

(** [POST /api/round/{round_id}/cashout]; the response is [{"profit": ...}].
    [profit] is assigned before the update is sent, so a failing update leaves
    it set. *)
Definition cashout (round_id : pystr) (req : CashoutRequest.t) (at_multiplier : float)
    : M (option float) :=
  d <- get_db ;;
  match d with
  | Some s =>
      try_except
        (store_call ;;;
         match latest_bet round_id (CashoutRequest.player_id req) (crashbet s) None with
         | Some (i, bet) =>
             let profit := cashout_profit (CrashBet.amount bet) at_multiplier in
             try_except
               (store_call ;;;
                put_store (mkStore (crashround s)
                             (update_one i (CrashBet.settle at_multiplier profit)
                                (crashbet s))))
               (ret tt) ;;;
             ret (Some profit)
         | None => ret None
         end)
        (ret None)
  | None => ret None
  end.

(* ------------------------------------------------------------------------- *)
(** ** Requests in sequence: the routes of [app] *)

Inductive Request : Type :=
| CreateRound (req : CreateRoundRequest.t)
| GetCurrentRound
| UpdateRoundStatus (round_id status : pystr)
| PlaceBet (round_id : pystr) (req : PlaceBetRequest.t)
| Cashout (round_id : pystr) (req : CashoutRequest.t) (at_multiplier : float).

Inductive Response : Type :=
| RoundResponse (r : RoundInfo.t)
| Acknowledged (ok : bool)
| BetResponse (bet_id : pystr)
| ProfitResponse (profit : option float).

(** The handler a request is routed to. *)
Definition handle (q : Request) : M Response :=
  match q with
  | CreateRound req => r <- create_round req ;; ret (RoundResponse r)
  | GetCurrentRound => r <- get_current_round ;; ret (RoundResponse r)
  | UpdateRoundStatus round_id status =>
      ok <- update_round_status round_id status ;; ret (Acknowledged ok)
  | PlaceBet round_id req => i <- place_bet round_id req ;; ret (BetResponse i)
  | Cashout round_id req m => p <- cashout round_id req m ;; ret (ProfitResponse p)
  end.

(** Requests served one after the other; a request that raised would leave
    the world it reached to the next one. *)
Fixpoint serve (qs : list Request) (w : World) : list (result Response) * World :=
  match qs with
  | [] => ([], w)
  | q :: qs' =>
      let (r, w1) := handle q w in
      let (rs, w2) := serve qs' w1 in
      (r :: rs, w2)
  end.
(* ------------------------------------------------------------------------- *)
(** ** [GET /test]: the database diagnosis *)

Module Diagnosis.

(** What [db.list_collection_names()] does: the names, or an exception with
    its message. *)
Inductive listing : Type :=
| Listed (names : list pystr)
| ListingFailed (message : pystr).

(** The [db] object as the handler sees it: its [name] ([None] when
    [hasattr(db, 'name')] is false) and its listing. *)
Record database : Type := mkDatabase {
  name : option pystr;
  list_collection_names : listing
}.

(** The two environment variables read, [None] when unset. *)
Record environ : Type := mkEnviron {
  DATABASE_URL : option pystr;
  DATABASE_NAME : option pystr
}.

(** The [response] dictionary, one field per key. *)
Record response : Type := mkResponse {
  backend : pystr;
  database_status : pystr;          (* key "database" *)
  database_url : option pystr;
  database_name : option pystr;
  connection_status : pystr;
  collections : list pystr
}.

Definition set_database (v : pystr) (r : response) : response :=
  mkResponse (backend r) v (database_url r) (database_name r) (connection_status r)
    (collections r).

Definition set_database_url (v : pystr) (r : response) : response :=
  mkResponse (backend r) (database_status r) (Some v) (database_name r)
    (connection_status r) (collections r).

Definition set_database_name (v : pystr) (r : response) : response :=
  mkResponse (backend r) (database_status r) (database_url r) (Some v)
    (connection_status r) (collections r).

Definition set_connection_status (v : pystr) (r : response) : response :=
  mkResponse (backend r) (database_status r) (database_url r) (database_name r) v
    (collections r).

Definition set_collections (v : list pystr) (r : response) : response :=
  mkResponse (backend r) (database_status r) (database_url r) (database_name r)
    (connection_status r) v.

(** The marks of the messages: U+2705, U+274C, and U+26A0 U+FE0F. *)
Definition check_mark : pystr := [0x2705].
Definition cross_mark : pystr := [0x274C].
Definition warning_sign : pystr := [0x26A0; 0xFE0F].

(** [os.getenv(name)] as a condition: set, and not the empty string. *)
Definition truthy (v : option pystr) : bool :=
  match v with
  | Some (_ :: _) => true
  | _ => false
  end.

End Diagnosis.

(** [test_database()].  The outer [except] is not modelled: nothing in the
    block it guards can raise outside the inner [try]. *)
Definition test_database (db : option Diagnosis.database) (env : Diagnosis.environ)
    : Diagnosis.response :=
  let response :=
    Diagnosis.mkResponse
      (Diagnosis.check_mark ++ PyStr.lit " Running")
      (Diagnosis.cross_mark ++ PyStr.lit " Not Available")
      None None (PyStr.lit "Not Connected") [] in
  let response :=
    match db with
    | Some d =>
        let response :=
          Diagnosis.set_database (Diagnosis.check_mark ++ PyStr.lit " Available")
            response in
        let response :=
          Diagnosis.set_database_url (Diagnosis.check_mark ++ PyStr.lit " Configured")
            response in
        let response :=
          Diagnosis.set_database_name
            (match Diagnosis.name d with
             | Some n => n
             | None => Diagnosis.check_mark ++ PyStr.lit " Connected"
             end) response in
        let response :=
          Diagnosis.set_connection_status (PyStr.lit "Connected") response in
        match Diagnosis.list_collection_names d with
        | Diagnosis.Listed collections =>
            let response :=
              Diagnosis.set_collections (firstn 10 collections) response in
            Diagnosis.set_database
              (Diagnosis.check_mark ++ PyStr.lit " Connected & Working") response
        | Diagnosis.ListingFailed message =>
            Diagnosis.set_database
              (Diagnosis.warning_sign ++ PyStr.lit "  Connected but Error: "
               ++ firstn 50 message) response
        end
    | None =>
        Diagnosis.set_database
          (Diagnosis.warning_sign ++ PyStr.lit "  Available but not initialized")
          response
    end in
  let response :=
    Diagnosis.set_database_url
      (if Diagnosis.truthy (Diagnosis.DATABASE_URL env)
       then Diagnosis.check_mark ++ PyStr.lit " Set"
       else Diagnosis.cross_mark ++ PyStr.lit " Not Set") response in
  Diagnosis.set_database_name
    (if Diagnosis.truthy (Diagnosis.DATABASE_NAME env)
     then Diagnosis.check_mark ++ PyStr.lit " Set"
     else Diagnosis.cross_mark ++ PyStr.lit " Not Set") response.

(* ========================================================================= *)
(** * Vocabulary of the properties *)

(* ------------------------------------------------------------------------- *)
(** ** Worlds and documents *)

Section WorldVocabulary.

(** The first document stored under an id. *)
Fixpoint find_doc {D : Type} (i : docid) (docs : list (docid * D)) : option D :=
  match docs with
  | [] => None
  | (j, d) :: docs' => if docid_eqb j i then Some d else find_doc i docs'
  end.

(** The key [update_round_status] looks a round up by. *)
Definition round_key (round_id : pystr) : result docid :=
  if (List.length round_id =? 24)%nat then object_id round_id else Ok (StrId round_id).

(** The world after a store call, after a new store, after a [uuid4()] draw
    and after an insertion. *)
Definition drop_fault (w : World) : World :=
  mkWorld (now w) (entropy w) (next_oid w) (db w) (tl (faults w)).

Definition with_store (s : Store) (w : World) : World :=
  mkWorld (now w) (entropy w) (next_oid w) (Some s) (faults w).

(** What the next [uuid4().hex] is. *)
Definition first_uuid (w : World) : pystr :=
  PyStr.hex (Sha256.be_bytes 16 (uuid4_int (hd 0 (entropy w)))).

Definition drop_entropy (w : World) : World :=
  mkWorld (now w) (tl (entropy w)) (next_oid w) (db w) (faults w).

Definition bump_oid (w : World) : World :=
  mkWorld (now w) (entropy w) (next_oid w + 1) (db w) (faults w).

(** The bet document [place_bet] builds: unsettled. *)
Definition new_bet (round_id : pystr) (req : PlaceBetRequest.t) : CrashBet.t :=
  CrashBet.mk round_id (PlaceBetRequest.player_id req) (PlaceBetRequest.amount req)
    (PlaceBetRequest.auto_cashout req) None None.

(** Where a new round starts, and the document [create_round] stores. *)
Definition round_start (req : CreateRoundRequest.t) (w : World) : float :=
  (now w + or_else (CreateRoundRequest.delay_seconds req) 0)%float.

Definition new_round (req : CreateRoundRequest.t) (w : World) (crash_at : float)
    : CrashRound.t :=
  CrashRound.mk (first_uuid w) (round_start req w) crash_at
    (or_else (CreateRoundRequest.k req) 0.25%float) scheduled.

(** The response built from a stored round. *)
Definition info_of (i : docid) (doc : CrashRound.t) : RoundInfo.t :=
  RoundInfo.mk (docid_str i) (CrashRound.start_time doc) (CrashRound.crash_at doc)
    (CrashRound.status doc).

End WorldVocabulary.

(* ------------------------------------------------------------------------- *)
(** ** Numbers *)

Section NumberVocabulary.

Local Open Scope float_scope.

(** A value between 0 and 15. *)
Definition is_nibble (d : Z) : Prop := 0 <= d < 16.

(** [1.01 <= v <= 50.0], as Python compares floats. *)
Definition in_range (v : float) : Prop :=
  (1.01 <=? v) = true /\ (v <=? 50.0) = true.

Definition in_rangeb (v : float) : bool := (1.01 <=? v) && (v <=? 50.0).

(** The decimals that [round2] can produce on the clamped range. *)
Definition two_decimals (n : Z) : float :=
  SF2Prim (SFdiv prec emax (S754_finite false (Z.to_pos n) 0) (S754_finite false 100 0)).

(** The multiplier before clamping, from the parsed number. *)
Definition raw_multiplier (r : Z) : float :=
  let r := if (r =? 0)%Z then 1%Z else r in
  1.0 / PyFloat.max 1e-9 (1.0 - PyFloat.of_int (r mod 2 ^ 52) / PyFloat.of_int (2 ^ 52)).

End NumberVocabulary.

(* ------------------------------------------------------------------------- *)
(** ** The derivation the spec describes (section 4.1), for comparison *)

Module SpecDerive.

Local Open Scope float_scope.
Local Open Scope result_scope.

(** "parse as an unsigned integer": the value of a string of hexadecimal
    digits. *)
Definition hex_value (s : pystr) : Z :=
  fold_left
    (fun acc c => (16 * acc + match PyStr.hex_val c with Some d => d | None => 0 end)%Z)
    s 0%Z.

(** "max(eps, 1 - x)" *)
Definition greater (a b : float) : float := if a <? b then b else a.

(** "clamp m to [lo, hi]" *)
Definition clamp (lo hi m : float) : float :=
  if m <? lo then lo else if hi <? m then hi else m.

Definition derive_key (key : list Byte.byte) : float :=
  let digest := hexdigest key in
  let r := hex_value (firstn 13 digest) in
  let r := if (r =? 0)%Z then 1%Z else r in
  let x := PyFloat.of_int r / PyFloat.of_int (2 ^ 52) in
  let m := 1.0 / greater 1e-9 (1.0 - x) in
  PyFloat.round2 (clamp 1.01 50.0 m).

(** The spec keys the HMAC by the seed without saying how a string becomes
    bytes; its UTF-8 encoding is taken, and a seed that has none has no
    derivation. *)
Definition derive (serverSeed : pystr) : result float :=
  key <- PyStr.encode serverSeed ;;
  Ok (derive_key key).

End SpecDerive.

(* ------------------------------------------------------------------------- *)
(** ** Worked scenario: one round, one player *)

Module Scenario.

Definition store0 : Store := mkStore [] [].

(** An empty store, reachable; three random draws ready. *)
Definition w0 : World :=
  mkWorld 1700000000.0%float [26; 7; 11] 1
    (Some store0) [].

(** The round that [create_round] stores first, and its id. *)
Definition rid : pystr := Eval vm_compute in PyStr.lit "000000000000000000000001".

Definition w_scheduled : World := Eval vm_compute in snd (create_round CreateRoundRequest.default w0).

Definition w_running : World := Eval vm_compute in snd (update_round_status rid running w_scheduled).

Definition alice : CashoutRequest.t := CashoutRequest.mk (PyStr.lit "alice").

Definition stake : PlaceBetRequest.t :=
  PlaceBetRequest.mk (PyStr.lit "alice") 10.0%float (Some 3.0%float).

(** Alice bets while the round runs; then the round is crashed. *)
Definition w_bet : World := Eval vm_compute in snd (place_bet rid stake w_running).

Definition w_crashed : World := Eval vm_compute in snd (update_round_status rid crashed w_bet).

(** Alice has cashed out at 1.5 while the round ran. *)
Definition w_settled : World := Eval vm_compute in snd (cashout rid alice 1.5%float w_bet).

End Scenario.

(** The store fails its next call. *)
Definition w_down : World :=
  mkWorld 1700000000.0%float [26; 7; 11] 1 (Some Scenario.store0) [true].

(** The hexadecimal HMAC-SHA256 of a message under a key, both ASCII. *)
Definition hmac_hex (key msg : string) : pystr :=
  PyStr.hex (flat_map (Sha256.be_bytes 4)
               (Sha256.state_words
                  (Hmac.hmac_state (list_byte_of_string key) (list_byte_of_string msg)))).

(* ------------------------------------------------------------------------- *)
(** ** What the claims ask *)

Section ClaimVocabulary.

Local Open Scope float_scope.

(** The response carries [c] under its [crash_at] key. *)
Definition exposes_crash_at (r : RoundInfo.t) (c : float) : Prop :=
  RoundInfo.field "crash_at" (RoundInfo.body r) = Some (RoundInfo.Num c).


(** The persistence call raises: there is no database, or the store fails
    the next call. *)
Definition store_unreachable (w : World) : Prop :=
  db w = None \/ hd false (faults w) = true.

(** A stored round whose id reads [round_id]. *)
Definition round_named (s : Store) (round_id : pystr) (doc : CrashRound.t) : Prop :=
  exists i, In (i, doc) (crashround s) /\ docid_str i = round_id.

(** What C3 asks of a cashout that answers a profit, for a server-side live
    multiplier [live]: the round runs, and the asserted multiplier exceeds
    neither the crash point nor the live multiplier. *)
Definition cashout_validated (live : World -> CrashRound.t -> float)
    (w : World) (round_id : pystr) (req : CashoutRequest.t) (m : float) : Prop :=
  forall p w', cashout round_id req m w = (Ok (Some p), w') ->
  exists s doc,
    db w = Some s /\ round_named s round_id doc /\
    CrashRound.status doc = running /\
    (m <=? CrashRound.crash_at doc) = true /\
    (m <=? live w doc) = true.

(** What C4 asks of a cashout on a settled bet: a rejection, and the stored
    bet unchanged. *)
Definition settlement_final
    (w : World) (round_id : pystr) (req : CashoutRequest.t) (m : float) : Prop :=
  forall s i bet,
    db w = Some s ->
    latest_bet round_id (CashoutRequest.player_id req) (crashbet s) None = Some (i, bet) ->
    CrashBet.cashed_out_at bet <> None ->
    forall r w', cashout round_id req m w = (r, w') ->
      (exists e, r = Raise e) /\
      (forall s', db w' = Some s' -> find_doc i (crashbet s') = Some bet).

(** The stake and the auto-cashout that [schemas.py] declares for a bet. *)
Definition valid_stake (req : PlaceBetRequest.t) : Prop :=
  (0 <? PlaceBetRequest.amount req) = true /\
  match PlaceBetRequest.auto_cashout req with
  | Some a => (1.01 <=? a) = true
  | None => True
  end.

(** What C5 asks of a placement that stores a bet: the round is scheduled or
    running, and the stake and auto-cashout are valid. *)
Definition place_bet_guarded
    (w : World) (round_id : pystr) (req : PlaceBetRequest.t) : Prop :=
  forall id w' s s',
    place_bet round_id req w = (Ok id, w') ->
    db w = Some s -> db w' = Some s' -> crashbet s' <> crashbet s ->
    (exists doc, round_named s round_id doc /\
                 is_active (CrashRound.status doc) = true) /\
    valid_stake req.

(** What C6 asks when [update_round_status] has made a round crashed: each
    bet on it that was unsettled is now settled at the crash point, with the
    stake lost. *)
Definition finalized_on_crash (w : World) (round_id : pystr) : Prop :=
  forall r w' s s' doc,
    update_round_status round_id crashed w = (r, w') ->
    db w = Some s -> db w' = Some s' ->
    round_named s' round_id doc -> CrashRound.status doc = crashed ->
    forall j bet,
      find_doc j (crashbet s) = Some bet ->
      CrashBet.round_id bet = round_id -> CrashBet.cashed_out_at bet = None ->
      exists bet',
        find_doc j (crashbet s') = Some bet' /\
        CrashBet.cashed_out_at bet' = Some (CrashRound.crash_at doc) /\
        CrashBet.profit bet' = Some (- CrashBet.amount bet).

(** The transitions of the spec: scheduled to running, running to crashed. *)
Definition legal_transition (old new : pystr) : bool :=
  (PyStr.eqb old scheduled && PyStr.eqb new running) ||
  (PyStr.eqb old running && PyStr.eqb new crashed).

(** What C7 asks of a status update that is not a legal transition: an
    error, and the store as it was. *)
Definition transitions_guarded (w : World) (round_id status : pystr) : Prop :=
  forall s i doc,
    db w = Some s -> round_key round_id = Ok i ->
    find_doc i (crashround s) = Some doc ->
    legal_transition (CrashRound.status doc) status = false ->
    exists e w', update_round_status round_id status w = (Raise e, w') /\ db w' = db w.

End ClaimVocabulary.

(* ------------------------------------------------------------------------- *)
(** ** Stores over time *)

Section StoreVocabulary.

Definition rounds_of (w : World) : list (docid * CrashRound.t) :=
  match db w with
  | Some s => crashround s
  | None => []
  end.

Definition bets_of (w : World) : list (docid * CrashBet.t) :=
  match db w with
  | Some s => crashbet s
  | None => []
  end.

(** [l'] is [l], each element possibly changed within [R], followed by new
    elements. *)
Definition grows {A : Type} (R : A -> A -> Prop) (l l' : list A) : Prop :=
  exists l1 l2, l' = l1 ++ l2 /\ Forall2 R l l1.

(** The same round: same id, seed, start, crash point and growth constant;
    only the status may differ. *)
Definition same_round (a b : docid * CrashRound.t) : Prop :=
  fst a = fst b /\
  CrashRound.server_seed (snd a) = CrashRound.server_seed (snd b) /\
  CrashRound.start_time (snd a) = CrashRound.start_time (snd b) /\
  CrashRound.crash_at (snd a) = CrashRound.crash_at (snd b) /\
  CrashRound.k (snd a) = CrashRound.k (snd b).

(** The same bet, possibly settled since: same id, round, player, amount and
    auto-cashout; a settlement, once there, is still there. *)
Definition same_bet (a b : docid * CrashBet.t) : Prop :=
  fst a = fst b /\
  CrashBet.round_id (snd a) = CrashBet.round_id (snd b) /\
  CrashBet.player_id (snd a) = CrashBet.player_id (snd b) /\
  CrashBet.amount (snd a) = CrashBet.amount (snd b) /\
  CrashBet.auto_cashout (snd a) = CrashBet.auto_cashout (snd b) /\
  (CrashBet.cashed_out_at (snd a) <> None -> CrashBet.cashed_out_at (snd b) <> None) /\
  (CrashBet.profit (snd a) <> None -> CrashBet.profit (snd b) <> None).

(** A round anyone can check: its crash point is the one its seed gives. *)
Definition verifiable (doc : CrashRound.t) : Prop :=
  crash_point_from_seed (CrashRound.server_seed doc) = Ok (CrashRound.crash_at doc).

(** A bet whose two settlement fields are set together. *)
Definition settled_together (b : CrashBet.t) : Prop :=
  CrashBet.cashed_out_at b = None <-> CrashBet.profit b = None.

(** What one request may do to the rounds: nothing, a new status for the
    rounds under one id, or one new verifiable, scheduled round. *)
Inductive round_step (rs : list (docid * CrashRound.t))
    : list (docid * CrashRound.t) -> Prop :=
| rounds_kept : round_step rs rs
| round_status_set (i : docid) (st : pystr) :
    round_step rs (update_one i (CrashRound.set_status st) rs)
| round_added (i : docid) (d : CrashRound.t) :
    verifiable d -> CrashRound.status d = scheduled ->
    round_step rs (rs ++ [(i, d)]).

(** What one request may do to the bets: nothing, settle the bets under one
    id, or add one unsettled bet. *)
Inductive bet_step (bs : list (docid * CrashBet.t))
    : list (docid * CrashBet.t) -> Prop :=
| bets_kept : bet_step bs bs
| bet_settled (i : docid) (m p : float) :
    bet_step bs (update_one i (CrashBet.settle m p) bs)
| bet_added (i : docid) (b : CrashBet.t) :
    CrashBet.cashed_out_at b = None -> CrashBet.profit b = None ->
    bet_step bs (bs ++ [(i, b)]).

End StoreVocabulary.
(* ------------------------------------------------------------------------- *)
(** ** Numbers written in hexadecimal *)

Section HexVocabulary.

(** The number a list of digits writes in base 16, most significant first. *)
Definition digits_value (ds : list Z) (acc : Z) : Z :=
  fold_left (fun a d => 16 * a + d) ds acc.

(** The number a list of bytes writes in base 256, most significant first. *)
Definition bytes_value (bs : list Byte.byte) (acc : Z) : Z :=
  fold_left (fun a b => 256 * a + Sha256.byteZ b) bs acc.

End HexVocabulary.
(* ------------------------------------------------------------------------- *)
(** ** Bets and rounds singled out *)

Section SelectionVocabulary.



End SelectionVocabulary.
(* ------------------------------------------------------------------------- *)
(** ** Signs and code points *)

Section SignVocabulary.

(** Zero, positive, infinite without a minus sign, or not a number: anything
    but a number below zero. *)
Definition sf_not_negative (x : spec_float) : Prop :=
  match x with
  | S754_zero _ => True
  | S754_infinity s => s = false
  | S754_nan => True
  | S754_finite s _ _ => s = false
  end.

(** A code point that UTF-8 encodes: in range, and no surrogate. *)
Definition scalar_value (c : Z) : Prop :=
  0 <= c < 0x110000 /\ ~ (0xD800 <= c <= 0xDFFF).

End SignVocabulary.
(* ------------------------------------------------------------------------- *)
(** ** More of the scenario *)

Module ScenarioMore.

(** The store of [Scenario.w_bet], answering one call and failing the next. *)
Definition w_flaky : World :=
  mkWorld (now Scenario.w_bet) (entropy Scenario.w_bet) (next_oid Scenario.w_bet)
    (db Scenario.w_bet) [false; true].

(** A visit: a round is created and started, and the current round asked
    for. *)
Definition visit : list Request :=
  [CreateRound CreateRoundRequest.default;
   UpdateRoundStatus Scenario.rid running;
   GetCurrentRound;
   PlaceBet Scenario.rid Scenario.stake;
   Cashout Scenario.rid Scenario.alice 1.5%float].

(** A database whose listing fails with a long message. *)
Definition broken : Diagnosis.database :=
  Diagnosis.mkDatabase (Some (PyStr.lit "crash"))
    (Diagnosis.ListingFailed
       (PyStr.lit "ServerSelectionTimeoutError: localhost:27017: [Errno 111] Connection refused")).

Definition no_environ : Diagnosis.environ := Diagnosis.mkEnviron None None.

End ScenarioMore.

(* ========================================================================= *)
(** * Properties *)

(* ------------------------------------------------------------------------- *)
(** ** Hexadecimal strings *)

Module HexFacts.

Import PyStr.

Lemma hex_val_digit (d : Z) : is_nibble d -> hex_val (hex_digit d) = Some d.
Proof.
  unfold is_nibble, hex_val, hex_digit; intros Hd.
  destruct (Z.ltb_spec d 10).
  - replace ((48 <=? 48 + d) && (48 + d <=? 57)) with true.
    + f_equal; lia.
    + symmetry; apply andb_true_intro; split; apply Z.leb_le; lia.
  - replace ((48 <=? 87 + d) && (87 + d <=? 57)) with false.
    + replace ((97 <=? 87 + d) && (87 + d <=? 102)) with true.
      * f_equal; lia.
      * symmetry; apply andb_true_intro; split; apply Z.leb_le; lia.
    + symmetry; apply andb_false_intro2; apply Z.leb_gt; lia.
Qed.

Lemma byteZ_range (b : Byte.byte) : 0 <= Sha256.byteZ b < 256.
Proof.
  unfold Sha256.byteZ.
  pose proof (Byte.to_N_bounded b) as H.
  lia.
Qed.

Lemma nibbles_ok (bs : list Byte.byte) : Forall is_nibble (flat_map nibbles bs).
Proof.
  induction bs as [|b bs IH]; simpl; [constructor|].
  pose proof (byteZ_range b) as Hb.
  constructor; [|constructor; [|exact IH]]; unfold is_nibble.
  - split; [apply Z.div_pos; lia | apply Z.div_lt_upper_bound; lia].
  - apply Z.mod_pos_bound; lia.
Qed.

Lemma nibbles_length (bs : list Byte.byte) :
  List.length (flat_map nibbles bs) = (2 * List.length bs)%nat.
Proof. induction bs as [|b bs IH]; simpl; [reflexivity | rewrite IH; lia]. Qed.

Lemma be_bytes_length (n : nat) (z : Z) : List.length (Sha256.be_bytes n z) = n.
Proof. induction n as [|n IH]; simpl; [reflexivity | now rewrite IH]. Qed.

Lemma Forall_firstn {A : Type} (P : A -> Prop) (n : nat) (l : list A) :
  Forall P l -> Forall P (firstn n l).
Proof.
  intros H; revert n; induction H as [|x l Hx Hl IH]; intros [|n]; simpl;
    constructor; auto.
Qed.

(** Parsing the digits of nibbles gives a number, and bounds it. *)
Lemma int16_digits_hex (ds : list Z) :
  Forall is_nibble ds ->
  forall acc, 0 <= acc ->
  exists v, int16_digits (map hex_digit ds) acc = Ok v /\
            acc * 16 ^ Z.of_nat (List.length ds) <= v
              < (acc + 1) * 16 ^ Z.of_nat (List.length ds).
Proof.
  induction 1 as [|d ds Hd Hds IH]; intros acc Hacc.
  - exists acc; simpl; split; [reflexivity | lia].
  - cbn [map int16_digits]. rewrite (hex_val_digit d Hd).
    unfold is_nibble in Hd.
    destruct (IH (16 * acc + d)) as [v [Hv Hb]]; [lia|].
    exists v; split; [exact Hv|].
    change (List.length (d :: ds)) with (S (List.length ds)).
    rewrite Nat2Z.inj_succ, Z.pow_succ_r by lia.
    set (p := 16 ^ Z.of_nat (List.length ds)) in *.
    assert (0 < p) by (apply Z.pow_pos_nonneg; lia).
    nia.
Qed.

Lemma int16_hex_prefix (n : nat) (bs : list Byte.byte) :
  (0 < n <= 2 * List.length bs)%nat ->
  exists v, int16 (firstn n (hex bs)) = Ok v /\ 0 <= v < 16 ^ Z.of_nat n.
Proof.
  intros Hn. unfold hex. rewrite firstn_map.
  pose proof (nibbles_length bs) as Hlen.
  assert (Hl : List.length (firstn n (flat_map nibbles bs)) = n)
    by (rewrite length_firstn; lia).
  destruct (int16_digits_hex (firstn n (flat_map nibbles bs))
              (Forall_firstn _ _ _ (nibbles_ok bs)) 0 ltac:(lia)) as [v [Hv Hb]].
  exists v. rewrite Hl in Hb. split; [|lia].
  unfold int16.
  destruct (firstn n (flat_map nibbles bs)) eqn:E; [simpl in Hl; lia | exact Hv].
Qed.

(** Every character of a hexadecimal rendering is ASCII, so it encodes. *)
Lemma encode_digits (ds : list Z) :
  Forall is_nibble ds -> exists key, encode (map hex_digit ds) = Ok key.
Proof.
  induction 1 as [|d ds Hd Hds [key IH]]; simpl.
  - now exists [].
  - unfold is_nibble in Hd.
    assert (Hc : utf8_char (hex_digit d) = Some [Sha256.Zbyte (hex_digit d)]).
    { unfold utf8_char, hex_digit.
      destruct (Z.ltb_spec d 10).
      - destruct (Z.ltb_spec (48 + d) 0); [lia|].
        destruct (Z.ltb_spec (48 + d) 0x80); [reflexivity | lia].
      - destruct (Z.ltb_spec (87 + d) 0); [lia|].
        destruct (Z.ltb_spec (87 + d) 0x80); [reflexivity | lia]. }
    rewrite Hc, IH. simpl. eexists; reflexivity.
Qed.

Lemma encode_hex (bs : list Byte.byte) : exists key, encode (hex bs) = Ok key.
Proof. apply encode_digits, nibbles_ok. Qed.

End HexFacts.

(* ------------------------------------------------------------------------- *)
(** ** Binary64 facts behind [crash_point_from_seed] *)

Module FloatFacts.

Local Open Scope float_scope.

(** The literals of the source are the binary64 numbers nearest to them. *)
Example literal_1_01 : 1.01 = 0x1.028f5c28f5c29p+0.
Proof. reflexivity. Qed.

Example literal_1e_9 : 1e-9 = 0x1.12e0be826d695p-30.
Proof. reflexivity. Qed.

Lemma sf_1_01 : Prim2SF 1.01 = S754_finite false 4548635623644201 (-52).
Proof. reflexivity. Qed.

Lemma sf_50 : Prim2SF 50.0 = S754_finite false 7036874417766400 (-47).
Proof. reflexivity. Qed.

Lemma sf_1e_9 : Prim2SF 1e-9 = S754_finite false 4835703278458517 (-82).
Proof. reflexivity. Qed.

Lemma sf_one : Prim2SF 1.0 = S754_finite false 4503599627370496 (-52).
Proof. reflexivity. Qed.

Lemma sf_zero : Prim2SF zero = S754_zero false.
Proof. reflexivity. Qed.

(** *** Division never meets a zero divisor *)

Lemma two52_nonzero : is_zero (PyFloat.of_int (2 ^ 52)) = false.
Proof. vm_compute. reflexivity. Qed.

Lemma above_eps_nonzero (y : float) : (1e-9 <? y) = true -> is_zero y = false.
Proof.
  unfold is_zero. rewrite ltb_spec, eqb_spec, sf_1e_9, sf_zero.
  destruct (Prim2SF y) as [s | s | | s m e]; simpl; try discriminate; intros _.
  - destruct s; reflexivity.
  - destruct s; reflexivity.
Qed.

Lemma max_eps_nonzero (y : float) : is_zero (PyFloat.max 1e-9 y) = false.
Proof.
  unfold PyFloat.max. destruct (1e-9 <? y) eqn:E.
  - now apply above_eps_nonzero.
  - vm_compute. reflexivity.
Qed.

(** *** Mantissas of valid numbers *)

Lemma digits2_pos_bounds (m : positive) :
  (2 ^ (Zpos (digits2_pos m) - 1) <= Zpos m < 2 ^ Zpos (digits2_pos m))%Z.
Proof.
  assert (Hstep : forall d : positive, (2 ^ Zpos d = 2 * 2 ^ (Zpos d - 1))%Z).
  { intros d. rewrite <- Z.pow_succ_r by lia. f_equal. lia. }
  induction m as [m IH | m IH |]; cbn [digits2_pos].
  - rewrite Pos2Z.inj_succ, Z.pow_succ_r by lia.
    replace (Z.succ (Zpos (digits2_pos m)) - 1)%Z with (Zpos (digits2_pos m)) by lia.
    rewrite (Hstep (digits2_pos m)) in *. rewrite (Pos2Z.inj_xI m).
    generalize dependent (2 ^ (Zpos (digits2_pos m) - 1))%Z. intros; lia.
  - rewrite Pos2Z.inj_succ, Z.pow_succ_r by lia.
    replace (Z.succ (Zpos (digits2_pos m)) - 1)%Z with (Zpos (digits2_pos m)) by lia.
    rewrite (Hstep (digits2_pos m)) in *. rewrite (Pos2Z.inj_xO m).
    generalize dependent (2 ^ (Zpos (digits2_pos m) - 1))%Z. intros; lia.
  - simpl. lia.
Qed.

(** A valid number whose exponent is above the subnormal one has a 53-bit
    mantissa. *)
Lemma normal_mantissa (s : bool) (m : positive) (e : Z) :
  valid_binary (S754_finite s m e) = true -> (-1074 < e)%Z ->
  (2 ^ 52 <= Zpos m < 2 ^ 53)%Z.
Proof.
  unfold SpecFloat.valid_binary, bounded, canonical_mantissa, fexp, SpecFloat.emin.
  intros Hv He. apply andb_prop in Hv. destruct Hv as [Hc _]. apply Z.eqb_eq in Hc.
  change prec with 53%Z in Hc. change emax with 1024%Z in Hc.
  assert (Hd : Zpos (digits2_pos m) = 53%Z) by lia.
  pose proof (digits2_pos_bounds m) as Hb. rewrite Hd in Hb.
  exact Hb.
Qed.

(** *** Rounding to two decimals stays inside the clamp *)

Lemma div_half_even_bounds (a b lo hi : Z) :
  (0 < b)%Z -> (lo * b <= a)%Z -> (a <= hi * b)%Z ->
  (lo <= PyFloat.div_half_even a b <= hi)%Z.
Proof.
  intros Hb Hlo Hhi. unfold PyFloat.div_half_even.
  pose proof (Z.div_mod a b ltac:(lia)) as Hdm.
  pose proof (Z.mod_pos_bound a b Hb) as Hr.
  set (q := (a / b)%Z) in *. set (r := (a mod b)%Z) in *.
  assert (Hq : (lo <= q)%Z) by nia.
  destruct (Z.compare_spec (2 * r) b) as [E | E | E].
  - destruct (Z.even q); nia.
  - nia.
  - nia.
Qed.

Lemma two_decimals_table :
  forallb (fun n => in_rangeb (two_decimals (Z.of_nat n))) (seq 101 4900) = true.
Proof. vm_compute. reflexivity. Qed.

Lemma two_decimals_in_range (n : Z) :
  (101 <= n <= 5000)%Z -> in_range (two_decimals n).
Proof.
  intros Hn.
  pose proof two_decimals_table as T. rewrite forallb_forall in T.
  specialize (T (Z.to_nat n)). rewrite Z2Nat.id in T by lia.
  assert (Hin : In (Z.to_nat n) (seq 101 4900)) by (apply in_seq; lia).
  apply T in Hin. unfold in_rangeb in Hin. apply andb_prop in Hin.
  exact Hin.
Qed.

(** [<] on positive finite numbers: by exponent, then by mantissa. *)
Lemma SFltb_positive (m1 m2 : positive) (e1 e2 : Z) :
  SFltb (S754_finite false m1 e1) (S754_finite false m2 e2) = true <->
  (e1 < e2 \/ (e1 = e2 /\ Zpos m1 < Zpos m2))%Z.
Proof.
  unfold SFltb, SFcompare.
  change (Pos.compare_cont Eq m1 m2) with (Pos.compare m1 m2).
  destruct (Z.compare_spec e1 e2) as [E | E | E].
  - destruct (Pos.compare_spec m1 m2) as [F | F | F]; split; intros H;
      try discriminate; try reflexivity; try (exfalso; lia).
    right; split; [exact E | lia].
  - split; intros H; [left; exact E | reflexivity].
  - split; intros H; [discriminate | exfalso; lia].
Qed.

Lemma cents_clamped (m : positive) (e : Z) :
  valid_binary (S754_finite false m e) = true ->
  SFltb (S754_finite false 4548635623644201 (-52)) (S754_finite false m e) = true ->
  SFltb (S754_finite false 7036874417766400 (-47)) (S754_finite false m e) = false ->
  (101 <= PyFloat.cents m e <= 5000)%Z.
Proof.
  intros Hv Hlo Hhi.
  apply SFltb_positive in Hlo.
  assert (Hhi' : ~ (-47 < e \/ (-47 = e /\ 7036874417766400 < Zpos m))%Z).
  { intros H. apply SFltb_positive in H. congruence. }
  pose proof (normal_mantissa false m e Hv ltac:(lia)) as Hm.
  change (2 ^ 52)%Z with 4503599627370496%Z in Hm.
  change (2 ^ 53)%Z with 9007199254740992%Z in Hm.
  assert (He : (e = -52 \/ e = -51 \/ e = -50 \/ e = -49 \/ e = -48 \/ e = -47)%Z) by lia.
  unfold PyFloat.cents.
  destruct He as [-> | [-> | [-> | [-> | [-> | ->]]]]];
    cbn [Z.leb Z.compare Z.opp Z.pow Z.pow_pos Pos.iter Z.mul Pos.mul];
    apply div_half_even_bounds; lia.
Qed.

Lemma round2_clamped (y : float) :
  (1.01 <? y) = true -> (50.0 <? y) = false -> in_range (PyFloat.round2 y).
Proof.
  rewrite !ltb_spec, sf_1_01, sf_50. intros Hlo Hhi.
  pose proof (Prim2SF_valid y) as Hv.
  unfold PyFloat.round2.
  destruct (Prim2SF y) as [s | s | | s m e]; try discriminate.
  - destruct s; discriminate.
  - destruct s; [discriminate|].
    pose proof (cents_clamped m e Hv Hlo Hhi) as Hc.
    destruct (PyFloat.cents m e) as [| n | n] eqn:E; try lia.
    change (in_range (two_decimals (Zpos n))).
    apply two_decimals_in_range. lia.
Qed.

(** Whatever [m] is (even [nan]), the clamp followed by [round2] lands in
    the range. *)
Lemma clamp_round2_in_range (m : float) :
  in_range (PyFloat.round2 (PyFloat.max 1.01 (PyFloat.min m 50.0))).
Proof.
  unfold PyFloat.max, PyFloat.min.
  destruct (50.0 <? m) eqn:Hhi.
  - vm_compute. split; reflexivity.
  - destruct (1.01 <? m) eqn:Hlo.
    + now apply round2_clamped.
    + vm_compute. split; reflexivity.
Qed.

End FloatFacts.

(* ------------------------------------------------------------------------- *)
(** ** [crash_point_from_seed]: what it computes, and when *)

Section CrashPointFacts.

Local Open Scope float_scope.

Lemma digest_length (st : Sha256.state) :
  List.length (flat_map (Sha256.be_bytes 4) (Sha256.state_words st)) = 32%nat.
Proof. reflexivity. Qed.

(** The thirteen leading digits of a digest always parse, to a number below
    [2^52]. *)
Lemma digest_prefix_parses (key : list Byte.byte) :
  exists r, PyStr.int16 (firstn 13 (hexdigest key)) = Ok r /\ (0 <= r < 2 ^ 52)%Z.
Proof.
  unfold hexdigest.
  destruct (HexFacts.int16_hex_prefix 13
              (flat_map (Sha256.be_bytes 4)
                 (Sha256.state_words (Hmac.hmac_state key (list_byte_of_string "crash")))))
    as [r [Hr Hb]].
  - rewrite digest_length. lia.
  - exists r. split; [exact Hr|]. change (16 ^ Z.of_nat 13)%Z with (2 ^ 52)%Z in Hb.
    exact Hb.
Qed.

(** Once the seed is encoded, nothing raises: the function returns the
    clamped, rounded multiplier. *)
Lemma crash_point_of_key (s : pystr) (key : list Byte.byte) :
  PyStr.encode s = Ok key ->
  exists r,
    PyStr.int16 (firstn 13 (hexdigest key)) = Ok r /\ (0 <= r < 2 ^ 52)%Z /\
    crash_point_from_seed s =
      Ok (PyFloat.round2 (PyFloat.max 1.01 (PyFloat.min (raw_multiplier r) 50.0))).
Proof.
  intros Henc.
  destruct (digest_prefix_parses key) as [r [Hr Hb]].
  exists r. split; [exact Hr|]. split; [exact Hb|].
  unfold crash_point_from_seed. rewrite Henc. cbn [rbind]. rewrite Hr. cbn [rbind].
  unfold PyFloat.truediv. rewrite FloatFacts.two52_nonzero. cbn [rbind].
  rewrite FloatFacts.max_eps_nonzero. reflexivity.
Qed.

Lemma crash_point_encode_error (s : pystr) (e : exn) :
  PyStr.encode s = Raise e ->
  e = UnicodeEncodeError /\ crash_point_from_seed s = Raise UnicodeEncodeError.
Proof.
  intros Henc.
  assert (He : e = UnicodeEncodeError).
  { revert e Henc. induction s as [|c s IH]; simpl; intros e Henc; [discriminate|].
    destruct (PyStr.utf8_char c); [|congruence].
    destruct (PyStr.encode s) as [rest | e']; simpl in Henc; [discriminate|].
    injection Henc as <-. now apply IH. }
  subst e. split; [reflexivity|].
  unfold crash_point_from_seed. now rewrite Henc.
Qed.

End CrashPointFacts.


Module DivisionFacts.

Local Open Scope Z_scope.

Lemma shr_1_nonneg (r : shr_record) : 0 <= shr_m r -> 0 <= shr_m (shr_1 r).
Proof.
  destruct r as [m r s]; simpl.
  destruct m as [| p | p]; [simpl; lia | | lia].
  intros _. destruct p; simpl; lia.
Qed.

Lemma iter_shr_1_nonneg (p : positive) :
  forall r, 0 <= shr_m r -> 0 <= shr_m (iter_pos shr_1 p r).
Proof.
  induction p as [p IH | p IH |]; intros r Hr; simpl.
  - apply IH, IH, shr_1_nonneg, Hr.
  - apply IH, IH, Hr.
  - apply shr_1_nonneg, Hr.
Qed.

Lemma shr_fexp_nonneg (m e : Z) (l : location) :
  0 <= m -> 0 <= shr_m (fst (shr_fexp prec emax m e l)).
Proof.
  intros Hm. unfold shr_fexp, shr.
  assert (H0 : 0 <= shr_m (shr_record_of_loc m l))
    by (destruct l as [| []]; simpl; exact Hm).
  destruct (fexp prec emax (Zdigits2 m + e) - e) as [| p | p]; simpl; try exact H0.
  apply iter_shr_1_nonneg, H0.
Qed.

Lemma round_nearest_even_nonneg (m : Z) (l : location) :
  0 <= m -> 0 <= round_nearest_even m l.
Proof.
  intros Hm. destruct l as [| []]; simpl; try lia.
  destruct (Z.even m); lia.
Qed.

(** Rounding a non-negative mantissa never gives [nan]. *)
Lemma binary_round_aux_not_nan (sx : bool) (mx ex : Z) (lx : location) :
  0 <= mx -> binary_round_aux prec emax sx mx ex lx <> S754_nan.
Proof.
  intros Hm. unfold binary_round_aux.
  pose proof (shr_fexp_nonneg mx ex lx Hm) as H1.
  destruct (shr_fexp prec emax mx ex lx) as [mrs' e']. simpl in H1.
  pose proof (shr_fexp_nonneg _ e' loc_Exact
                (round_nearest_even_nonneg _ (loc_of_shr_record mrs') H1)) as H2.
  destruct (shr_fexp prec emax (round_nearest_even (shr_m mrs') (loc_of_shr_record mrs'))
              e' loc_Exact) as [mrs'' e'']. simpl in H2.
  destruct (shr_m mrs'') as [| p | p]; [discriminate | | lia].
  destruct (e'' <=? emax - prec); discriminate.
Qed.

Lemma SFdiv_finite_not_nan (sx sy : bool) (mx my : positive) (ex ey : Z) :
  SFdiv prec emax (S754_finite sx mx ex) (S754_finite sy my ey) <> S754_nan.
Proof.
  unfold SFdiv, SFdiv_core_binary.
  set (e' := Z.min _ _). set (s := ex - ey - e').
  set (m' := match s with Zpos _ => Z.shiftl (Zpos mx) s | 0 => Zpos mx | Zneg _ => 0 end).
  assert (Hm' : 0 <= m').
  { unfold m'. destruct s; try lia. apply Z.shiftl_nonneg. lia. }
  assert (Hq : 0 <= fst (Z.div_eucl m' (Zpos my))).
  { change (fst (Z.div_eucl m' (Zpos my))) with (m' / Zpos my).
    apply Z.div_pos; lia. }
  destruct (Z.div_eucl m' (Zpos my)) as [q r]. simpl in Hq.
  now apply binary_round_aux_not_nan.
Qed.

End DivisionFacts.

Module ClampFacts.

Local Open Scope float_scope.

Lemma raw_multiplier_not_nan (r : Z) : Prim2SF (raw_multiplier r) <> S754_nan.
Proof.
  unfold raw_multiplier.
  set (y := 1.0 - _ / _). rewrite div_spec, FloatFacts.sf_one.
  unfold PyFloat.max. destruct (1e-9 <? y) eqn:E.
  - rewrite ltb_spec, FloatFacts.sf_1e_9 in E. unfold SF64div.
    destruct (Prim2SF y) as [s | s | | s m e]; try discriminate E.
    + destruct s; [discriminate E | simpl; discriminate].
    + apply DivisionFacts.SFdiv_finite_not_nan.
  - rewrite FloatFacts.sf_1e_9. apply DivisionFacts.SFdiv_finite_not_nan.
Qed.

(** On anything but [nan], Python's [max(lo, min(m, hi))] is the clamp. *)
Lemma clamp_agrees (m : float) :
  Prim2SF m <> S754_nan ->
  PyFloat.max 1.01 (PyFloat.min m 50.0) = SpecDerive.clamp 1.01 50.0 m.
Proof.
  intros Hnan. unfold PyFloat.max, PyFloat.min, SpecDerive.clamp.
  destruct (50.0 <? m) eqn:Hhi.
  - replace (m <? 1.01) with false; [reflexivity|].
    symmetry. rewrite ltb_spec, FloatFacts.sf_50 in Hhi.
    rewrite ltb_spec, FloatFacts.sf_1_01.
    destruct (Prim2SF m) as [s | s | | s mm e]; try discriminate Hhi.
    + destruct s; [discriminate Hhi | reflexivity].
    + destruct s; [discriminate Hhi|].
      apply FloatFacts.SFltb_positive in Hhi.
      destruct (SFltb (S754_finite false mm e) (S754_finite false 4548635623644201 (-52)))
        eqn:E; [|reflexivity].
      apply FloatFacts.SFltb_positive in E. lia.
  - destruct (1.01 <? m) eqn:Hlo.
    + replace (m <? 1.01) with false; [reflexivity|].
      symmetry. rewrite ltb_spec, FloatFacts.sf_1_01 in Hlo.
      rewrite ltb_spec, FloatFacts.sf_1_01.
      destruct (Prim2SF m) as [s | s | | s mm e]; try discriminate Hlo.
      * destruct s; [discriminate Hlo | reflexivity].
      * destruct s; [discriminate Hlo|].
        apply FloatFacts.SFltb_positive in Hlo.
        destruct (SFltb (S754_finite false mm e) (S754_finite false 4548635623644201 (-52)))
          eqn:E; [|reflexivity].
        apply FloatFacts.SFltb_positive in E. lia.
    + destruct (m <? 1.01) eqn:Hlt; [reflexivity|].
      apply Prim2SF_inj. rewrite FloatFacts.sf_1_01.
      rewrite ltb_spec, FloatFacts.sf_1_01 in Hlo, Hlt.
      destruct (Prim2SF m) as [s | s | | s mm e].
      * discriminate Hlt.
      * destruct s; [discriminate Hlt | discriminate Hlo].
      * now elim Hnan.
      * destruct s; [discriminate Hlt|].
        assert (H1 : ~ (-52 < e \/ (-52 = e /\ 4548635623644201 < Zpos mm))%Z)
          by (intros H; apply FloatFacts.SFltb_positive in H; congruence).
        assert (H2 : ~ (e < -52 \/ (e = -52 /\ Zpos mm < 4548635623644201))%Z)
          by (intros H; apply FloatFacts.SFltb_positive in H; congruence).
        assert (He : e = (-52)%Z) by lia.
        assert (Hm : mm = 4548635623644201%positive) by lia.
        now subst.
Qed.

Lemma hex_value_int16 (s : pystr) (r : Z) :
  PyStr.int16 s = Ok r -> SpecDerive.hex_value s = r.
Proof.
  unfold SpecDerive.hex_value, PyStr.int16.
  assert (H : forall t acc, PyStr.int16_digits t acc = Ok r ->
            fold_left (fun a c => (16 * a + match PyStr.hex_val c with
                                             | Some d => d | None => 0 end)%Z) t acc = r).
  { induction t as [|c t IH]; simpl; intros acc Hp; [congruence|].
    destruct (PyStr.hex_val c); [now apply IH | discriminate]. }
  destruct s; [discriminate | apply H].
Qed.

End ClampFacts.

(* ------------------------------------------------------------------------- *)
(** ** The crash point: refinement, range, totality *)

(** C2. For every seed, [crash_point_from_seed] is the derivation the spec
    describes: HMAC-SHA256 keyed by the seed over "crash", the first 13
    hexadecimal digits as [r] (1 when 0), [x = r / 2^52],
    [m = 1 / max(1e-9, 1 - x)], clamped to [1.01, 50.0] and rounded to two
    decimals; a seed that cannot be encoded has neither. *)
Theorem crash_point_refines_derive (server_seed : pystr) :
  crash_point_from_seed server_seed = SpecDerive.derive server_seed.
Proof.
  unfold SpecDerive.derive.
  destruct (PyStr.encode server_seed) as [key | e] eqn:Henc.
  - destruct (crash_point_of_key server_seed key Henc) as [r [Hr [Hb ->]]].
    cbn [rbind]. f_equal. unfold SpecDerive.derive_key.
    rewrite (ClampFacts.hex_value_int16 _ _ Hr).
    rewrite (ClampFacts.clamp_agrees _ (ClampFacts.raw_multiplier_not_nan r)).
    unfold raw_multiplier, SpecDerive.greater, PyFloat.max.
    rewrite Z.mod_small; [reflexivity|].
    destruct (Z.eqb_spec r 0); lia.
  - destruct (crash_point_encode_error server_seed e Henc) as [-> ->]. reflexivity.
Qed.

(** C8. Two calls with the same seed have the same outcome, and the value
    returned lies in [1.01, 50.0]; the only other outcome is the encoding
    error of a seed that is not UTF-8 encodable. *)
Theorem crash_point_deterministic_in_range (s1 s2 : pystr) :
  s1 = s2 ->
  crash_point_from_seed s1 = crash_point_from_seed s2 /\
  match crash_point_from_seed s1 with
  | Ok v => in_range v
  | Raise e => e = UnicodeEncodeError /\ PyStr.encode s1 = Raise UnicodeEncodeError
  end.
Proof.
  intros <-. split; [reflexivity|].
  destruct (PyStr.encode s1) as [key | e] eqn:Henc.
  - destruct (crash_point_of_key s1 key Henc) as [r [_ [_ ->]]].
    apply FloatFacts.clamp_round2_in_range.
  - destruct (crash_point_encode_error s1 e Henc) as [-> ->]. now split.
Qed.

(** C10, amended. For every seed that UTF-8 encodes, [crash_point_from_seed]
    returns a float: the 13 digest characters parse, and no division meets a
    zero divisor. *)
Theorem crash_point_total_on_encodable (server_seed : pystr) (key : list Byte.byte) :
  PyStr.encode server_seed = Ok key ->
  (exists r, PyStr.int16 (firstn 13 (hexdigest key)) = Ok r) /\
  (forall y, PyFloat.truediv 1.0%float (PyFloat.max 1e-9%float y)
             = Ok (1.0 / PyFloat.max 1e-9 y)%float) /\
  exists v, crash_point_from_seed server_seed = Ok v.
Proof.
  intros Henc. destruct (crash_point_of_key server_seed key Henc) as [r [Hr [_ ->]]].
  split; [now exists r|]. split.
  - intros y. unfold PyFloat.truediv. now rewrite FloatFacts.max_eps_nonzero.
  - eexists; reflexivity.
Qed.

(** C10 as stated fails: a lone surrogate is a string, and encoding it
    raises. *)
Lemma crash_point_raises_on_surrogate :
  crash_point_from_seed [0xD800] = Raise UnicodeEncodeError /\
  ~ (forall s : pystr, exists v, crash_point_from_seed s = Ok v).
Proof.
  assert (H : crash_point_from_seed [0xD800] = Raise UnicodeEncodeError) by reflexivity.
  split; [exact H|].
  intros Hall. destruct (Hall [0xD800]) as [v Hv]. congruence.
Qed.

(* ------------------------------------------------------------------------- *)
(** ** Handlers: what each does to the world *)

Section HandlerFacts.

Lemma find_update_one {D : Type} (i : docid) (f : D -> D) (docs : list (docid * D)) :
  find_doc i (update_one i f docs) = option_map f (find_doc i docs).
Proof.
  induction docs as [|[j d] docs IH]; simpl; [reflexivity|].
  destruct (docid_eqb j i) eqn:E; simpl; rewrite E; [reflexivity | exact IH].
Qed.

(** [update_round_status] step by step: no database, a malformed id or a
    failing store leave the rounds alone; otherwise the status is written. *)
Lemma update_round_status_run (round_id status : pystr) (w : World) :
  update_round_status round_id status w =
  (Ok true,
   match db w with
   | None => w
   | Some s =>
       match round_key round_id with
       | Raise _ => w
       | Ok i =>
           if hd false (faults w) then drop_fault w
           else with_store
                  (mkStore (update_one i (CrashRound.set_status status) (crashround s))
                           (crashbet s))
                  (drop_fault w)
       end
   end).
Proof.
  unfold update_round_status, bind, get_db.
  destruct (db w) as [s|] eqn:Hdb; [|reflexivity].
  unfold try_except, bind, lift. fold (round_key round_id).
  destruct (round_key round_id) as [i | e]; [|reflexivity].
  unfold store_call. fold (drop_fault w).
  destruct (hd false (faults w)); reflexivity.
Qed.

(** [cashout] step by step.  Neither the round nor the bet's earlier
    settlement is looked at. *)
Lemma cashout_run (round_id : pystr) (req : CashoutRequest.t) (m : float) (w : World) :
  cashout round_id req m w =
  match db w with
  | None => (Ok None, w)
  | Some s =>
      if hd false (faults w) then (Ok None, drop_fault w)
      else
        match latest_bet round_id (CashoutRequest.player_id req) (crashbet s) None with
        | None => (Ok None, drop_fault w)
        | Some (i, bet) =>
            let p := cashout_profit (CrashBet.amount bet) m in
            (Ok (Some p),
             if hd false (tl (faults w)) then drop_fault (drop_fault w)
             else with_store
                    (mkStore (crashround s)
                       (update_one i (CrashBet.settle m p) (crashbet s)))
                    (drop_fault (drop_fault w)))
        end
  end.
Proof.
  unfold cashout, bind, get_db.
  destruct (db w) as [s|] eqn:Hdb; [|reflexivity].
  unfold try_except, bind, store_call. fold (drop_fault w).
  destruct (hd false (faults w)); [reflexivity|].
  destruct (latest_bet round_id (CashoutRequest.player_id req) (crashbet s) None)
    as [[i bet]|]; [|reflexivity].
  cbn [faults drop_fault]. fold (drop_fault (drop_fault w)).
  destruct (hd false (tl (faults w))); reflexivity.
Qed.

Lemma uuid4_hex_run (w : World) : uuid4_hex w = (Ok (first_uuid w), drop_entropy w).
Proof. reflexivity. Qed.

Lemma object_id_str_nonempty (n : Z) : exists c t, docid_str (ObjId n) = c :: t.
Proof. eexists. eexists. reflexivity. Qed.

(** [place_bet] step by step.  No round is looked up and no field of the
    request is examined. *)
Lemma place_bet_run (round_id : pystr) (req : PlaceBetRequest.t) (w : World) :
  place_bet round_id req w =
  match db w with
  | None => (Ok (first_uuid w), drop_entropy w)
  | Some s =>
      if hd false (faults w) then (Ok (first_uuid w), drop_entropy (drop_fault w))
      else
        (Ok (docid_str (ObjId (next_oid w))),
         with_store
           (mkStore (crashround s)
              (crashbet s ++ [(ObjId (next_oid w), new_bet round_id req)]))
           (bump_oid (drop_fault w)))
  end.
Proof.
  unfold place_bet, bind, get_db. fold (new_bet round_id req).
  destruct (db w) as [s|] eqn:Hdb; [|reflexivity].
  unfold try_except, bind, create_document_bet, bind, get_db. rewrite Hdb.
  unfold store_call. fold (drop_fault w).
  destruct (hd false (faults w)); [reflexivity|].
  unfold fresh_oid, put_store, ret.
  destruct (object_id_str_nonempty (next_oid (drop_fault w))) as [c [t Hc]].
  rewrite Hc. rewrite <- Hc. reflexivity.
Qed.

(** The seed [create_round] draws always has a crash point. *)
Lemma seed_crash_point (w : World) :
  exists c, crash_point_from_seed (first_uuid w) = Ok c.
Proof.
  unfold first_uuid.
  destruct (HexFacts.encode_hex (Sha256.be_bytes 16 (uuid4_int (hd 0 (entropy w)))))
    as [key Hkey].
  destruct (crash_point_of_key _ key Hkey) as [r [_ [_ Hc]]].
  eexists; exact Hc.
Qed.

(** [create_round] step by step, given the crash point of the seed drawn. *)
Lemma create_round_run (req : CreateRoundRequest.t) (w : World) (c : float) :
  crash_point_from_seed (first_uuid w) = Ok c ->
  create_round req w =
  let w1 := drop_entropy w in
  match db w with
  | None =>
      (Ok (RoundInfo.mk (first_uuid w1) (round_start req w) c scheduled), drop_entropy w1)
  | Some s =>
      if hd false (faults w) then
        (Ok (RoundInfo.mk (first_uuid w1) (round_start req w) c scheduled),
         drop_entropy (drop_fault w1))
      else
        (Ok (RoundInfo.mk (docid_str (ObjId (next_oid w))) (round_start req w) c scheduled),
         with_store
           (mkStore (crashround s ++ [(ObjId (next_oid w), new_round req w c)])
                    (crashbet s))
           (bump_oid (drop_fault w1)))
  end.
Proof.
  intros Hc. unfold create_round, bind. rewrite uuid4_hex_run.
  unfold lift. rewrite Hc. unfold time.
  cbn [now drop_entropy]. fold (round_start req w). fold (new_round req w c).
  unfold try_except, create_document_round, bind, get_db.
  change (db (drop_entropy w)) with (db w).
  destruct (db w) as [s|] eqn:Hdb; [|reflexivity].
  unfold store_call. change (faults (drop_entropy w)) with (faults w).
  destruct (hd false (faults w)); reflexivity.
Qed.

(** [get_current_round] step by step. *)
Lemma get_current_round_run (w : World) :
  get_current_round w =
  match db w with
  | None => create_round CreateRoundRequest.default w
  | Some s =>
      if hd false (faults w) then create_round CreateRoundRequest.default (drop_fault w)
      else
        match newest_active (crashround s) None with
        | Some (i, doc) => (Ok (info_of i doc), drop_fault w)
        | None => create_round CreateRoundRequest.default (drop_fault w)
        end
  end.
Proof.
  unfold get_current_round, bind, get_db.
  destruct (db w) as [s|] eqn:Hdb; [|reflexivity].
  unfold try_except, bind, store_call. fold (drop_fault w).
  destruct (hd false (faults w)); [reflexivity|].
  destruct (newest_active (crashround s) None) as [[i doc]|]; reflexivity.
Qed.

(** The round found is one of the stored ones, and is scheduled or running. *)
Lemma newest_active_found (docs : list (docid * CrashRound.t)) :
  forall best i doc,
  (forall j d, best = Some (j, d) -> is_active (CrashRound.status d) = true) ->
  newest_active docs best = Some (i, doc) ->
  is_active (CrashRound.status doc) = true /\ (In (i, doc) docs \/ best = Some (i, doc)).
Proof.
  induction docs as [|[j d] docs IH]; intros best i doc Hbest Hfind; simpl in Hfind.
  - split; [now apply (Hbest i doc) | now right].
  - apply IH in Hfind.
    + destruct Hfind as [Ha [Hin | Hb]]; split; try exact Ha; [left; now right|].
      destruct (is_active (CrashRound.status d)); [|now right].
      destruct best as [[j0 d0]|].
      * destruct (CrashRound.start_time d0 <? CrashRound.start_time d)%float;
          [left; left; congruence | now right].
      * left; left; congruence.
    + intros j1 d1 H1.
      destruct (is_active (CrashRound.status d)) eqn:Ed; [|now apply (Hbest j1 d1)].
      destruct best as [[j0 d0]|].
      * destruct (CrashRound.start_time d0 <? CrashRound.start_time d)%float.
        -- injection H1 as <- <-. exact Ed.
        -- now apply (Hbest j1 d1).
      * injection H1 as <- <-. exact Ed.
Qed.

End HandlerFacts.


(* ------------------------------------------------------------------------- *)
(** ** Checks against known values *)

Section KnownValues.

(** FIPS 180-4, "abc". *)
Example sha256_abc :
  PyStr.hex (Sha256.digest (list_byte_of_string "abc")) =
  PyStr.lit "ba7816bf8f01cfea414140de5dae2223b00361a396177a9cb410ff61f20015ad".
Proof. vm_compute. reflexivity. Qed.

(** RFC 4231, test case 2. *)
Example hmac_rfc4231_2 :
  hmac_hex "Jefe" "what do ya want for nothing?" =
  PyStr.lit "5bdcc146bf60754e6a042426089575c75a003f089d2739839dec58b964ec3843".
Proof. vm_compute. reflexivity. Qed.

(** RFC 4231, test case 6: a key longer than a block is hashed first. *)
Example hmac_rfc4231_6 :
  PyStr.hex (flat_map (Sha256.be_bytes 4)
               (Sha256.state_words
                  (Hmac.hmac_state (repeat Byte.xaa 131)
                     (list_byte_of_string
                        "Test Using Larger Than Block-Size Key - Hash Key First")))) =
  PyStr.lit "60e431591ee0b67f0d8a26aacbf5b77f8e0bc6213728c5140546040f0ee37f54".
Proof. vm_compute. reflexivity. Qed.

Example hexdigest_abc :
  hexdigest (list_byte_of_string "abc") =
  PyStr.lit "f4b857c0c8b845f8dcae2485663d71295829298b5843b23403f8cdb3b62bab87".
Proof. vm_compute. reflexivity. Qed.

Example crash_point_abc : crash_point_from_seed (PyStr.lit "abc") = Ok 22.7%float.
Proof. vm_compute. reflexivity. Qed.

Example crash_point_empty : crash_point_from_seed [] = Ok 5.25%float.
Proof. vm_compute. reflexivity. Qed.

(** A seed outside ASCII: U+00E9, then U+1F600. *)
Example crash_point_e_acute : crash_point_from_seed [0xE9] = Ok 1.27%float.
Proof. vm_compute. reflexivity. Qed.

Example crash_point_emoji : crash_point_from_seed [0x1F600] = Ok 6.01%float.
Proof. vm_compute. reflexivity. Qed.

Example round2_ties :
  map PyFloat.round2 [2.675; 0.125; 0.375; -2.5; 1e300]%float =
  [2.67; 0.12; 0.38; -2.5; 1e300]%float.
Proof. vm_compute. reflexivity. Qed.

Example scenario_seed :
  first_uuid Scenario.w0 = PyStr.lit "0000000000004000800000000000001a".
Proof. vm_compute. reflexivity. Qed.

Example scenario_round :
  fst (create_round CreateRoundRequest.default Scenario.w0) =
  Ok (RoundInfo.mk Scenario.rid 1700000002.0%float 1.99%float scheduled).
Proof. vm_compute. reflexivity. Qed.

End KnownValues.

(* ------------------------------------------------------------------------- *)
(** ** Round responses and the crash point *)

Section RoundResponses.

Lemma exposes_own_crash_at (r : RoundInfo.t) : exposes_crash_at r (RoundInfo.crash_at r).
Proof. reflexivity. Qed.

Lemma scheduled_is_active : is_active scheduled = true.
Proof. reflexivity. Qed.



End RoundResponses.

(* ------------------------------------------------------------------------- *)
(** ** Degraded mode: the store is unreachable *)

Section Degraded.

Lemma create_document_raises (w : World) (data : CrashBet.t) :
  store_unreachable w -> exists w', create_document_bet data w = (Raise StoreError, w').
Proof.
  unfold create_document_bet, bind, get_db, store_call, raise.
  intros [Hdb | Hf].
  - rewrite Hdb. eexists; reflexivity.
  - destruct (db w); [rewrite Hf|]; eexists; reflexivity.
Qed.

Lemma uuid_length (w : World) : List.length (first_uuid w) = 32%nat.
Proof.
  unfold first_uuid, PyStr.hex.
  now rewrite length_map, HexFacts.nibbles_length, HexFacts.be_bytes_length.
Qed.

(** C9. When the persistence call raises, [create_round] and [place_bet]
    still succeed, and the id they return is a [uuid4().hex] drawn for the
    purpose (for [create_round], the draw after the seed's); nothing is
    stored. *)
Theorem ephemeral_id_when_store_unreachable (w : World) :
  store_unreachable w ->
  (forall req, exists r w',
     create_round req w = (Ok r, w') /\
     RoundInfo.id r = first_uuid (drop_entropy w) /\
     List.length (RoundInfo.id r) = 32%nat /\
     RoundInfo.status r = scheduled /\
     db w' = db w) /\
  (forall round_id req, exists w',
     place_bet round_id req w = (Ok (first_uuid w), w') /\
     List.length (first_uuid w) = 32%nat /\
     db w' = db w).
Proof.
  intros Hun. split.
  - intros req. destruct (seed_crash_point w) as [c Hc].
    rewrite (create_round_run req w c Hc). cbv zeta.
    destruct Hun as [Hdb | Hf].
    + rewrite Hdb. eexists. eexists. split; [reflexivity|].
      cbn [RoundInfo.id RoundInfo.status]. rewrite uuid_length. now repeat split.
    + destruct (db w) as [s|] eqn:Hdb; [rewrite Hf|];
        (eexists; eexists; split; [reflexivity|]);
        cbn [RoundInfo.id RoundInfo.status]; rewrite uuid_length; now repeat split.
  - intros round_id req. rewrite place_bet_run.
    destruct Hun as [Hdb | Hf].
    + rewrite Hdb. eexists. split; [reflexivity|]. rewrite uuid_length. now split.
    + destruct (db w) as [s|] eqn:Hdb; [rewrite Hf|];
        (eexists; split; [reflexivity|]); rewrite uuid_length; now split.
Qed.

Lemma ephemeral_id_witness :
  (forall req, exists r w',
     create_round req w_down = (Ok r, w') /\
     RoundInfo.id r = first_uuid (drop_entropy w_down) /\
     List.length (RoundInfo.id r) = 32%nat /\
     RoundInfo.status r = scheduled /\
     db w' = db w_down) /\
  (forall round_id req, exists w',
     place_bet round_id req w_down = (Ok (first_uuid w_down), w') /\
     List.length (first_uuid w_down) = 32%nat /\
     db w' = db w_down).
Proof. apply (ephemeral_id_when_store_unreachable w_down). right. reflexivity. Defined.

End Degraded.

(* ------------------------------------------------------------------------- *)
(** ** Settlement: [cashout] *)

Section Settlement.

Local Open Scope float_scope.

(** C3 as stated fails, whatever the live multiplier is taken to be: on the
    crashed round, and on the running round whose crash point is 1.99, a
    cashout asserting 1000.0 is settled. *)
Lemma cashout_unvalidated_counterexample :
  ~ (exists live, cashout_validated live Scenario.w_crashed Scenario.rid Scenario.alice 1000.0) /\
  ~ (exists live, cashout_validated live Scenario.w_bet Scenario.rid Scenario.alice 1000.0).
Proof.
  split; intros [live H].
  - destruct (H 9990.0 (snd (cashout Scenario.rid Scenario.alice 1000.0 Scenario.w_crashed)))
      as [s [doc [Hdb [[i [Hin _]] [Hst _]]]]]; [vm_compute; reflexivity|].
    vm_compute in Hdb. injection Hdb as <-.
    destruct Hin as [Hin | []]. injection Hin as _ <-. discriminate Hst.
  - destruct (H 9990.0 (snd (cashout Scenario.rid Scenario.alice 1000.0 Scenario.w_bet)))
      as [s [doc [Hdb [[i [Hin _]] [_ [Hle _]]]]]]; [vm_compute; reflexivity|].
    vm_compute in Hdb. injection Hdb as <-.
    destruct Hin as [Hin | []]. injection Hin as _ <-. discriminate Hle.
Qed.

(** C3, amended. [cashout] never rejects and consults neither the round nor
    the clock: it answers a profit exactly when the store answers and the
    player has a bet on the round, and then settles the most recent such bet
    at the asserted multiplier, [profit = round(amount * max(0, m - 1), 2)]. *)
Theorem cashout_trusts_asserted_multiplier
    (w : World) (round_id : pystr) (req : CashoutRequest.t) (m : float) :
  exists r w',
    cashout round_id req m w = (Ok r, w') /\
    match r with
    | Some p =>
        exists s i bet,
          db w = Some s /\ hd false (faults w) = false /\
          latest_bet round_id (CashoutRequest.player_id req) (crashbet s) None
            = Some (i, bet) /\
          p = cashout_profit (CrashBet.amount bet) m /\
          (hd false (tl (faults w)) = false ->
           db w' = Some (mkStore (crashround s)
                           (update_one i (CrashBet.settle m p) (crashbet s))))
    | None =>
        db w = None \/ hd false (faults w) = true \/
        exists s, db w = Some s /\
                  latest_bet round_id (CashoutRequest.player_id req) (crashbet s) None
                    = None
    end.
Proof.
  rewrite cashout_run.
  destruct (db w) as [s|] eqn:Hdb.
  - destruct (hd false (faults w)) eqn:Hf.
    + eexists. eexists. split; [reflexivity|]. right; now left.
    + destruct (latest_bet round_id (CashoutRequest.player_id req) (crashbet s) None)
        as [[i bet]|] eqn:Hbet.
      * eexists. eexists. split; [reflexivity|].
        exists s, i, bet. repeat split; try assumption.
        intros Hf2. rewrite Hf2. reflexivity.
      * eexists. eexists. split; [reflexivity|]. right; right. now exists s.
  - eexists. eexists. split; [reflexivity|]. now left.
Qed.

(** C4 as stated fails: Alice, settled at 1.5 with profit 5.0, cashes out
    again at 3.0; the answer is a profit of 20.0, and that is what the store
    then holds. *)
Lemma resettlement_counterexample :
  fst (cashout Scenario.rid Scenario.alice 3.0 Scenario.w_settled) = Ok (Some 20.0) /\
  option_map (fun s => map (fun d => CrashBet.profit (snd d)) (crashbet s))
    (db Scenario.w_settled) = Some [Some 5.0] /\
  option_map (fun s => map (fun d => CrashBet.profit (snd d)) (crashbet s))
    (db (snd (cashout Scenario.rid Scenario.alice 3.0 Scenario.w_settled)))
    = Some [Some 20.0] /\
  ~ settlement_final Scenario.w_settled Scenario.rid Scenario.alice 3.0.
Proof.
  split; [vm_compute; reflexivity|].
  split; [vm_compute; reflexivity|].
  split; [vm_compute; reflexivity|].
  intros H.
  destruct (db Scenario.w_settled) as [s|] eqn:Hdb; [|discriminate Hdb].
  destruct (latest_bet Scenario.rid (CashoutRequest.player_id Scenario.alice)
              (crashbet s) None) as [[i bet]|] eqn:Hbet.
  - vm_compute in Hdb. injection Hdb as <-.
    vm_compute in Hbet. injection Hbet as <- <-.
    destruct (H _ _ _ eq_refl eq_refl ltac:(discriminate) _ _ eq_refl) as [[e He] _].
    vm_compute in He. discriminate He.
  - vm_compute in Hdb. injection Hdb as <-. vm_compute in Hbet. discriminate Hbet.
Qed.

(** C4, amended. A settled bet is settled again: when the store answers, a
    cashout on a bet that already has [cashed_out_at] and [profit] is not
    rejected; it answers the profit of the new multiplier and overwrites both
    fields with the new values. *)
Theorem cashout_overwrites_settlement
    (w : World) (round_id : pystr) (req : CashoutRequest.t) (m : float)
    (s : Store) (i : docid) (bet : CrashBet.t) (m0 p0 : float) :
  db w = Some s ->
  hd false (faults w) = false -> hd false (tl (faults w)) = false ->
  latest_bet round_id (CashoutRequest.player_id req) (crashbet s) None = Some (i, bet) ->
  find_doc i (crashbet s) = Some bet ->
  CrashBet.cashed_out_at bet = Some m0 -> CrashBet.profit bet = Some p0 ->
  let p := cashout_profit (CrashBet.amount bet) m in
  exists w' s' bet',
    cashout round_id req m w = (Ok (Some p), w') /\
    db w' = Some s' /\
    find_doc i (crashbet s') = Some bet' /\
    CrashBet.cashed_out_at bet' = Some m /\ CrashBet.profit bet' = Some p.
Proof.
  intros Hdb Hf1 Hf2 Hbet Hfind _ _ p.
  rewrite cashout_run, Hdb, Hf1, Hbet. cbv zeta. rewrite Hf2. fold p.
  eexists. exists (mkStore (crashround s) (update_one i (CrashBet.settle m p) (crashbet s))).
  exists (CrashBet.settle m p bet).
  split; [reflexivity|]. split; [reflexivity|].
  split; [|split; reflexivity].
  cbn [crashbet]. rewrite find_update_one, Hfind. reflexivity.
Qed.

Lemma cashout_overwrites_settlement_witness :
  exists w' s' bet',
    cashout Scenario.rid Scenario.alice 3.0 Scenario.w_settled = (Ok (Some 20.0), w') /\
    db w' = Some s' /\
    find_doc (ObjId 2) (crashbet s') = Some bet' /\
    CrashBet.cashed_out_at bet' = Some 3.0 /\ CrashBet.profit bet' = Some 20.0.
Proof.
  exact (cashout_overwrites_settlement Scenario.w_settled Scenario.rid Scenario.alice 3.0
           _ (ObjId 2) _ 1.5 5.0 eq_refl eq_refl eq_refl eq_refl eq_refl eq_refl eq_refl).
Defined.

End Settlement.

(* ------------------------------------------------------------------------- *)
(** ** Placement: [place_bet] *)

Section Placement.

Local Open Scope float_scope.

(** C5 as stated fails: a bet placed on the crashed round is stored. *)
Lemma bet_on_crashed_round_counterexample :
  option_map (fun s => map (fun d => CrashRound.status (snd d)) (crashround s))
    (db Scenario.w_crashed) = Some [crashed] /\
  option_map (fun s => List.length (crashbet s))
    (db (snd (place_bet Scenario.rid Scenario.stake Scenario.w_crashed))) = Some 2%nat /\
  ~ place_bet_guarded Scenario.w_crashed Scenario.rid Scenario.stake.
Proof.
  split; [vm_compute; reflexivity|].
  split; [vm_compute; reflexivity|].
  intros H.
  destruct (place_bet Scenario.rid Scenario.stake Scenario.w_crashed) as [r w'] eqn:E.
  vm_compute in E. injection E as <- <-.
  edestruct H as [[doc [[i [Hin _]] Hact]] _].
  - reflexivity.
  - reflexivity.
  - reflexivity.
  - discriminate.
  - destruct Hin as [Hin | []]. injection Hin as _ <-. discriminate Hact.
Qed.

(** C5, amended. [place_bet] looks up no round: whenever the store answers, a
    request with a positive amount and, when supplied, an auto-cashout of at
    least 1.01 stores an unsettled bet and answers its id, whatever the
    status of the round named (crashed included) and whether or not such a
    round exists. *)
Theorem place_bet_ignores_round_status
    (w : World) (round_id : pystr) (req : PlaceBetRequest.t) (s : Store) :
  db w = Some s -> hd false (faults w) = false -> valid_stake req ->
  exists w',
    place_bet round_id req w = (Ok (docid_str (ObjId (next_oid w))), w') /\
    db w' = Some (mkStore (crashround s)
                    (crashbet s ++ [(ObjId (next_oid w), new_bet round_id req)])) /\
    CrashBet.cashed_out_at (new_bet round_id req) = None /\
    CrashBet.profit (new_bet round_id req) = None.
Proof.
  intros Hdb Hf _. rewrite place_bet_run, Hdb, Hf.
  eexists. split; [reflexivity|]. now repeat split.
Qed.

Lemma place_bet_on_crashed_round_witness :
  exists w',
    place_bet Scenario.rid Scenario.stake Scenario.w_crashed
      = (Ok (docid_str (ObjId (next_oid Scenario.w_crashed))), w') /\
    db w' = Some (mkStore
                    (map (fun d => (fst d, CrashRound.set_status crashed (snd d)))
                       (match db Scenario.w_scheduled with
                        | Some s => crashround s
                        | None => []
                        end))
                    (match db Scenario.w_bet with
                     | Some s => crashbet s
                     | None => []
                     end ++
                     [(ObjId (next_oid Scenario.w_crashed),
                       new_bet Scenario.rid Scenario.stake)])) /\
    CrashBet.cashed_out_at (new_bet Scenario.rid Scenario.stake) = None /\
    CrashBet.profit (new_bet Scenario.rid Scenario.stake) = None.
Proof.
  exact (place_bet_ignores_round_status Scenario.w_crashed Scenario.rid Scenario.stake
           _ eq_refl eq_refl (conj eq_refl eq_refl)).
Defined.

End Placement.

(* ------------------------------------------------------------------------- *)
(** ** Round status: [update_round_status] *)

Section RoundStatus.

Local Open Scope float_scope.

(** C6 as stated fails: Alice's bet (auto-cashout 3.0, crash point 1.99) is
    unsettled when the round is crashed, and stays so. *)
Lemma unsettled_after_crash_counterexample :
  option_map (fun s => map (fun d => CrashRound.status (snd d)) (crashround s))
    (db (snd (update_round_status Scenario.rid crashed Scenario.w_bet))) = Some [crashed] /\
  option_map (fun s => map (fun d => (CrashBet.cashed_out_at (snd d),
                                      CrashBet.profit (snd d))) (crashbet s))
    (db (snd (update_round_status Scenario.rid crashed Scenario.w_bet)))
    = Some [(None, None)] /\
  ~ finalized_on_crash Scenario.w_bet Scenario.rid.
Proof.
  split; [vm_compute; reflexivity|].
  split; [vm_compute; reflexivity|].
  intros H.
  destruct (update_round_status Scenario.rid crashed Scenario.w_bet) as [r w'] eqn:E.
  vm_compute in E. injection E as <- <-.
  edestruct H as [bet' [Hfind [Hc _]]].
  - reflexivity.
  - reflexivity.
  - reflexivity.
  - eexists. split; [left; reflexivity | reflexivity].
  - reflexivity.
  - instantiate (2 := ObjId 2). reflexivity.
  - reflexivity.
  - reflexivity.
  - vm_compute in Hfind. injection Hfind as <-. discriminate Hc.
Qed.

(** C6, amended. Moving a round to crashed (or to any status) settles
    nothing: [update_round_status] always acknowledges, and every bet is
    stored afterwards exactly as before, so a bet that was unsettled keeps
    [cashed_out_at] and [profit] unset. *)
Theorem status_update_leaves_bets (w : World) (round_id status : pystr) :
  exists w',
    update_round_status round_id status w = (Ok true, w') /\
    option_map crashbet (db w') = option_map crashbet (db w).
Proof.
  rewrite update_round_status_run. eexists. split; [reflexivity|].
  destruct (db w) as [s|] eqn:Hdb; [|now rewrite Hdb].
  destruct (round_key round_id) as [i | e]; [|now rewrite Hdb].
  destruct (hd false (faults w)); cbn [db drop_fault with_store crashbet option_map];
    [now rewrite Hdb | reflexivity].
Qed.

(** C7 as stated fails: the crashed round is moved back to scheduled, and the
    scheduled round straight to crashed; both requests are acknowledged. *)
Lemma status_regression_counterexample :
  update_round_status Scenario.rid scheduled Scenario.w_crashed
    = (Ok true, with_store
                  (mkStore [(ObjId 1, CrashRound.mk
                                        (PyStr.lit "0000000000004000800000000000001a")
                                        1700000002.0 1.99 0.25 scheduled)]
                           (match db Scenario.w_bet with
                            | Some s => crashbet s
                            | None => []
                            end))
                  Scenario.w_crashed) /\
  ~ transitions_guarded Scenario.w_crashed Scenario.rid scheduled /\
  ~ transitions_guarded Scenario.w_scheduled Scenario.rid crashed.
Proof.
  split; [vm_compute; reflexivity|].
  split; intros H.
  - edestruct H as [e [w' [He _]]].
    + reflexivity.
    + vm_compute. reflexivity.
    + vm_compute. reflexivity.
    + reflexivity.
    + rewrite update_round_status_run in He. discriminate He.
  - edestruct H as [e [w' [He _]]].
    + reflexivity.
    + vm_compute. reflexivity.
    + vm_compute. reflexivity.
    + reflexivity.
    + rewrite update_round_status_run in He. discriminate He.
Qed.

(** C7, amended. [update_round_status] checks no transition: every request
    is acknowledged with [{"ok": True}], and when the store answers, the
    round stored under the id gets the requested status, whatever status it
    had (backward moves, skipping [running], and strings that name no status
    included). *)
Theorem update_round_status_unguarded (w : World) (round_id status : pystr) :
  exists w',
    update_round_status round_id status w = (Ok true, w') /\
    forall s i doc,
      db w = Some s -> hd false (faults w) = false ->
      round_key round_id = Ok i ->
      find_doc i (crashround s) = Some doc ->
      exists s',
        db w' = Some s' /\
        find_doc i (crashround s') = Some (CrashRound.set_status status doc) /\
        CrashRound.status (CrashRound.set_status status doc) = status.
Proof.
  rewrite update_round_status_run. eexists. split; [reflexivity|].
  intros s i doc Hdb Hf Hkey Hfind. rewrite Hdb, Hkey, Hf.
  eexists. split; [reflexivity|]. cbn [crashround].
  rewrite find_update_one, Hfind. split; reflexivity.
Qed.

End RoundStatus.

(* ------------------------------------------------------------------------- *)
(** ** Instances of the crash-point theorems *)

Lemma crash_point_deterministic_witness :
  crash_point_from_seed (PyStr.lit "abc") = crash_point_from_seed (PyStr.lit "abc") /\
  match crash_point_from_seed (PyStr.lit "abc") with
  | Ok v => in_range v
  | Raise e =>
      e = UnicodeEncodeError /\ PyStr.encode (PyStr.lit "abc") = Raise UnicodeEncodeError
  end.
Proof.
  exact (crash_point_deterministic_in_range (PyStr.lit "abc") (PyStr.lit "abc") eq_refl).
Defined.

Lemma crash_point_total_witness :
  (exists r, PyStr.int16 (firstn 13 (hexdigest (list_byte_of_string "abc"))) = Ok r) /\
  (forall y, PyFloat.truediv 1.0%float (PyFloat.max 1e-9%float y)
             = Ok (1.0 / PyFloat.max 1e-9 y)%float) /\
  exists v, crash_point_from_seed (PyStr.lit "abc") = Ok v.
Proof.
  exact (crash_point_total_on_encodable (PyStr.lit "abc")
           (list_byte_of_string "abc") eq_refl).
Defined.

(* ------------------------------------------------------------------------- *)
(** ** Requests in sequence: what every handler keeps *)

Section Steps.

(** Each handler answers, and moves the store by one step. *)
Lemma handle_step (q : Request) (w : World) :
  exists a w',
    handle q w = (Ok a, w') /\
    round_step (rounds_of w) (rounds_of w') /\
    bet_step (bets_of w) (bets_of w').
Proof.
  assert (Hcreate : forall req w0, exists r w',
            create_round req w0 = (Ok r, w') /\
            round_step (rounds_of w0) (rounds_of w') /\
            bet_step (bets_of w0) (bets_of w')).
  { intros req w0. destruct (seed_crash_point w0) as [c Hc].
    rewrite (create_round_run req w0 c Hc). cbv zeta. unfold rounds_of, bets_of.
    destruct (db w0) as [s|] eqn:Hdb; [destruct (hd false (faults w0))|];
      eexists; eexists; (split; [reflexivity|]);
      cbn [db drop_fault drop_entropy with_store bump_oid crashround crashbet];
      rewrite ?Hdb; split; try constructor.
    - exact Hc.
    - reflexivity. }
  destruct q as [req | | rid st | rid req | rid req m]; unfold handle, bind.
  - destruct (Hcreate req w) as [r [w' [-> H]]]. eexists; eexists; split; [reflexivity | exact H].
  - rewrite get_current_round_run. unfold rounds_of, bets_of.
    destruct (db w) as [s|] eqn:Hdb.
    + destruct (hd false (faults w)).
      * destruct (Hcreate CreateRoundRequest.default (drop_fault w)) as [r [w' [-> H]]].
        unfold rounds_of, bets_of in H. cbn [db drop_fault] in H. rewrite Hdb in H.
        eexists; eexists; split; [reflexivity | exact H].
      * destruct (newest_active (crashround s) None) as [[i doc]|].
        -- eexists; eexists; split; [reflexivity|].
           cbn [db drop_fault]. rewrite Hdb. split; constructor.
        -- destruct (Hcreate CreateRoundRequest.default (drop_fault w)) as [r [w' [-> H]]].
           unfold rounds_of, bets_of in H. cbn [db drop_fault] in H. rewrite Hdb in H.
           eexists; eexists; split; [reflexivity | exact H].
    + destruct (Hcreate CreateRoundRequest.default w) as [r [w' [-> H]]].
      unfold rounds_of, bets_of in H. rewrite Hdb in H.
      eexists; eexists; split; [reflexivity | exact H].
  - rewrite update_round_status_run. eexists; eexists; split; [reflexivity|].
    unfold rounds_of, bets_of.
    destruct (db w) as [s|] eqn:Hdb; [|rewrite Hdb; split; constructor].
    destruct (round_key rid) as [i | e]; [|rewrite Hdb; split; constructor].
    destruct (hd false (faults w));
      cbn [db drop_fault with_store crashround crashbet]; rewrite ?Hdb;
      split; constructor.
  - rewrite place_bet_run. unfold rounds_of, bets_of.
    destruct (db w) as [s|] eqn:Hdb; [destruct (hd false (faults w))|];
      eexists; eexists; (split; [reflexivity|]);
      cbn [db drop_fault drop_entropy with_store bump_oid crashround crashbet];
      rewrite ?Hdb; split; constructor; reflexivity.
  - rewrite cashout_run. unfold rounds_of, bets_of.
    destruct (db w) as [s|] eqn:Hdb.
    + destruct (hd false (faults w)).
      * eexists; eexists; split; [reflexivity|].
        cbn [db drop_fault]. rewrite Hdb. split; constructor.
      * destruct (latest_bet rid (CashoutRequest.player_id req) (crashbet s) None)
          as [[i bet]|].
        -- cbv zeta. destruct (hd false (tl (faults w)));
             eexists; eexists; (split; [reflexivity|]);
             cbn [db drop_fault with_store crashround crashbet]; rewrite ?Hdb;
             split; constructor.
        -- eexists; eexists; split; [reflexivity|].
           cbn [db drop_fault]. rewrite Hdb. split; constructor.
    + eexists; eexists; split; [reflexivity|]. rewrite Hdb. split; constructor.
Qed.

End Steps.

Section Growth.

Context {A : Type} (R : A -> A -> Prop).
Hypothesis R_refl : forall a, R a a.
Hypothesis R_trans : forall a b c, R a b -> R b c -> R a c.

Lemma Forall2_reflexive (l : list A) : Forall2 R l l.
Proof. induction l; constructor; auto. Qed.

Lemma Forall2_transitive (l1 : list A) :
  forall l2 l3, Forall2 R l1 l2 -> Forall2 R l2 l3 -> Forall2 R l1 l3.
Proof.
  induction l1 as [|a l1 IH]; intros l2 l3 H12 H23; inversion H12; subst;
    inversion H23; subst; constructor; eauto.
Qed.

Lemma grows_refl (l : list A) : grows R l l.
Proof. exists l, []. split; [now rewrite app_nil_r | apply Forall2_reflexive]. Qed.

Lemma grows_app (l x : list A) : grows R l (l ++ x).
Proof. exists l, x. split; [reflexivity | apply Forall2_reflexive]. Qed.

Lemma grows_trans (l l' l'' : list A) : grows R l l' -> grows R l' l'' -> grows R l l''.
Proof.
  intros [l1 [l2 [-> H1]]] [m1 [m2 [-> H2]]].
  apply Forall2_app_inv_l in H2 as [m1a [m1b [Ha [Hb ->]]]].
  exists m1a, (m1b ++ m2). split; [now rewrite app_assoc|].
  eapply Forall2_transitive; eassumption.
Qed.

End Growth.

Section SequenceInvariants.

Lemma update_one_Forall2 {D : Type} (R : docid * D -> docid * D -> Prop)
    (i : docid) (f : D -> D) (docs : list (docid * D)) :
  (forall a, R a a) -> (forall j d, R (j, d) (j, f d)) ->
  Forall2 R docs (update_one i f docs).
Proof.
  intros Hrefl Hf. induction docs as [|[j d] docs IH]; simpl; [constructor|].
  destruct (docid_eqb j i); constructor; auto. now apply Forall2_reflexive.
Qed.

Lemma update_one_Forall {D : Type} (P : docid * D -> Prop)
    (i : docid) (f : D -> D) (docs : list (docid * D)) :
  (forall j d, P (j, d) -> P (j, f d)) ->
  Forall P docs -> Forall P (update_one i f docs).
Proof.
  intros Hf H. induction H as [|[j d] docs Hd Hdocs IH]; simpl; [constructor|].
  destruct (docid_eqb j i); constructor; auto.
Qed.

Lemma same_round_refl (a : docid * CrashRound.t) : same_round a a.
Proof. unfold same_round; tauto. Qed.

Lemma same_round_trans (a b c : docid * CrashRound.t) :
  same_round a b -> same_round b c -> same_round a c.
Proof. unfold same_round; intuition congruence. Qed.

Lemma same_bet_refl (a : docid * CrashBet.t) : same_bet a a.
Proof. unfold same_bet; tauto. Qed.

Lemma same_bet_trans (a b c : docid * CrashBet.t) :
  same_bet a b -> same_bet b c -> same_bet a c.
Proof. unfold same_bet; intuition congruence. Qed.

Lemma round_step_grows (rs rs' : list (docid * CrashRound.t)) :
  round_step rs rs' -> grows same_round rs rs'.
Proof.
  intros [| i st | i d _ _].
  - apply grows_refl, same_round_refl.
  - exists (update_one i (CrashRound.set_status st) rs), [].
    split; [now rewrite app_nil_r|].
    apply update_one_Forall2; [apply same_round_refl|].
    intros j d. unfold same_round; simpl; tauto.
  - apply grows_app, same_round_refl.
Qed.

Lemma bet_step_grows (bs bs' : list (docid * CrashBet.t)) :
  bet_step bs bs' -> grows same_bet bs bs'.
Proof.
  intros [| i m p | i b _ _].
  - apply grows_refl, same_bet_refl.
  - exists (update_one i (CrashBet.settle m p) bs), [].
    split; [now rewrite app_nil_r|].
    apply update_one_Forall2; [apply same_bet_refl|].
    intros j d. unfold same_bet; simpl. repeat split; intros _; discriminate.
  - apply grows_app, same_bet_refl.
Qed.

Lemma round_step_verifiable (rs rs' : list (docid * CrashRound.t)) :
  round_step rs rs' ->
  Forall (fun d => verifiable (snd d)) rs -> Forall (fun d => verifiable (snd d)) rs'.
Proof.
  intros [| i st | i d Hd _] H.
  - exact H.
  - apply update_one_Forall; [|exact H]. intros j d Hd. exact Hd.
  - apply Forall_app. split; [exact H | constructor; [exact Hd | constructor]].
Qed.

Lemma bet_step_settled_together (bs bs' : list (docid * CrashBet.t)) :
  bet_step bs bs' ->
  Forall (fun b => settled_together (snd b)) bs ->
  Forall (fun b => settled_together (snd b)) bs'.
Proof.
  intros [| i m p | i b Hc Hp] H.
  - exact H.
  - apply update_one_Forall; [|exact H]. intros j d _.
    unfold settled_together; simpl. split; discriminate.
  - apply Forall_app. split; [exact H|]. constructor; [|constructor].
    unfold settled_together; simpl. rewrite Hc, Hp. tauto.
Qed.

(** Serving a list of requests, one step at a time. *)
Lemma serve_cons (q : Request) (qs : list Request) (w : World) :
  serve (q :: qs) w =
  (fst (handle q w) :: fst (serve qs (snd (handle q w))),
   snd (serve qs (snd (handle q w)))).
Proof.
  cbn [serve]. destruct (handle q w) as [r w1]. cbn [fst snd].
  destruct (serve qs w1) as [rs w2]. reflexivity.
Qed.

(** An invariant of single steps is an invariant of request sequences. *)
Lemma serve_invariant (I : World -> World -> Prop) :
  (forall w, I w w) ->
  (forall w1 w2 w3, I w1 w2 -> I w2 w3 -> I w1 w3) ->
  (forall q w, I w (snd (handle q w))) ->
  forall qs w, I w (snd (serve qs w)).
Proof.
  intros Hrefl Htrans Hstep. induction qs as [|q qs IH]; intros w.
  - apply Hrefl.
  - rewrite serve_cons. cbn [snd]. eapply Htrans; [apply Hstep | apply IH].
Qed.


(** X2. Rounds are never deleted, reordered or rewritten: after any sequence
    of requests every round stored before is still stored at its place under
    the same id, with the same server_seed, start_time, crash_at and k; only
    its status may differ, and new rounds come after it. *)
Theorem rounds_only_grow (qs : list Request) (w : World) :
  grows same_round (rounds_of w) (rounds_of (snd (serve qs w))).
Proof.
  revert qs w.
  apply (serve_invariant (fun w w' => grows same_round (rounds_of w) (rounds_of w'))).
  - intros w. apply grows_refl, same_round_refl.
  - intros w1 w2 w3. apply grows_trans, same_round_trans.
  - intros q w. destruct (handle_step q w) as [a [w' [-> [Hr _]]]].
    now apply round_step_grows.
Qed.

(** X3. Bets are never deleted, reordered or re-attributed: after any
    sequence of requests every bet stored before is still stored at its place
    under the same id, with the same round_id, player_id, amount and
    auto_cashout; a bet that had cashed_out_at and profit set still has them
    set (though not necessarily to the same values). *)
Theorem bets_only_grow (qs : list Request) (w : World) :
  grows same_bet (bets_of w) (bets_of (snd (serve qs w))).
Proof.
  revert qs w.
  apply (serve_invariant (fun w w' => grows same_bet (bets_of w) (bets_of w'))).
  - intros w. apply grows_refl, same_bet_refl.
  - intros w1 w2 w3. apply grows_trans, same_bet_trans.
  - intros q w. destruct (handle_step q w) as [a [w' [-> [_ Hb]]]].
    now apply bet_step_grows.
Qed.

(** X4. Stored rounds stay verifiable: if the crash_at of every stored round
    is the crash point of its own server_seed, the same holds after any
    sequence of requests, for the old rounds and for those created since. *)
Theorem rounds_stay_verifiable (qs : list Request) (w : World) :
  Forall (fun d => verifiable (snd d)) (rounds_of w) ->
  Forall (fun d => verifiable (snd d)) (rounds_of (snd (serve qs w))).
Proof.
  revert w. induction qs as [|q qs IH]; intros w H.
  - exact H.
  - rewrite serve_cons. cbn [snd]. apply IH.
    destruct (handle_step q w) as [a [w' [-> [Hr _]]]].
    now apply (round_step_verifiable _ _ Hr).
Qed.

(** X5. The two settlement fields go together: if in every stored bet
    cashed_out_at is unset exactly when profit is, the same holds after any
    sequence of requests. *)
Theorem bets_stay_settled_together (qs : list Request) (w : World) :
  Forall (fun b => settled_together (snd b)) (bets_of w) ->
  Forall (fun b => settled_together (snd b)) (bets_of (snd (serve qs w))).
Proof.
  revert w. induction qs as [|q qs IH]; intros w H.
  - exact H.
  - rewrite serve_cons. cbn [snd]. apply IH.
    destruct (handle_step q w) as [a [w' [-> [_ Hb]]]].
    now apply (bet_step_settled_together _ _ Hb).
Qed.

End SequenceInvariants.
(* ------------------------------------------------------------------------- *)
(** ** Ids written and read back *)

Section IdRoundTrip.

Lemma byteZ_Zbyte (z : Z) : Sha256.byteZ (Sha256.Zbyte z) = z mod 256.
Proof.
  unfold Sha256.byteZ, Sha256.Zbyte.
  pose proof (Z.mod_pos_bound z 256 ltac:(lia)) as Hz.
  destruct (Byte.of_N (Z.to_N (z mod 256))) as [b|] eqn:E.
  - apply Byte.to_of_N in E. rewrite E. apply Z2N.id. lia.
  - apply Byte.of_N_None_iff in E. lia.
Qed.

Lemma int16_digits_value (ds : list Z) :
  Forall is_nibble ds ->
  forall acc, PyStr.int16_digits (map PyStr.hex_digit ds) acc = Ok (digits_value ds acc).
Proof.
  unfold digits_value.
  induction 1 as [|d ds Hd Hds IH]; intros acc; [reflexivity|].
  cbn [map PyStr.int16_digits fold_left]. rewrite (HexFacts.hex_val_digit d Hd).
  apply IH.
Qed.

Lemma nibbles_value (bs : list Byte.byte) :
  forall acc, digits_value (flat_map PyStr.nibbles bs) acc = bytes_value bs acc.
Proof.
  unfold digits_value, bytes_value.
  induction bs as [|b bs IH]; intros acc; [reflexivity|].
  cbn [flat_map PyStr.nibbles app fold_left]. rewrite IH. f_equal.
  pose proof (Z.div_mod (Sha256.byteZ b) 16 ltac:(lia)). lia.
Qed.

Lemma be_bytes_value (k : nat) (n : Z) :
  forall acc,
  bytes_value (Sha256.be_bytes k n) acc
  = acc * 2 ^ (8 * Z.of_nat k) + n mod 2 ^ (8 * Z.of_nat k).
Proof.
  unfold bytes_value.
  induction k as [|k IH]; intros acc.
  - cbn [Sha256.be_bytes fold_left]. change (2 ^ (8 * Z.of_nat 0)) with 1.
    rewrite Z.mod_1_r. lia.
  - cbn [Sha256.be_bytes fold_left]. rewrite IH, byteZ_Zbyte.
    rewrite Z.shiftr_div_pow2 by lia.
    replace (8 * Z.of_nat (S k)) with (8 * Z.of_nat k + 8) by lia.
    rewrite Z.pow_add_r by lia. change (2 ^ 8) with 256.
    set (p := 2 ^ (8 * Z.of_nat k)).
    assert (Hp : 0 < p) by (apply Z.pow_pos_nonneg; lia).
    rewrite (Z.rem_mul_r n p 256) by lia. lia.
Qed.

(** Reading a hexadecimal rendering gives the number back. *)
Lemma int16_hex_be_bytes (k : nat) (n : Z) :
  (0 < k)%nat -> 0 <= n < 2 ^ (8 * Z.of_nat k) ->
  PyStr.int16 (PyStr.hex (Sha256.be_bytes k n)) = Ok n.
Proof.
  intros Hk Hn. unfold PyStr.hex, PyStr.int16.
  destruct (map PyStr.hex_digit (flat_map PyStr.nibbles (Sha256.be_bytes k n))) eqn:E.
  - apply (f_equal (@List.length Z)) in E.
    rewrite length_map, HexFacts.nibbles_length, HexFacts.be_bytes_length in E.
    simpl in E. lia.
  - rewrite <- E, int16_digits_value by apply HexFacts.nibbles_ok.
    rewrite nibbles_value, be_bytes_value, Z.mod_small by exact Hn.
    f_equal; lia.
Qed.

Lemma docid_str_length (n : Z) : List.length (docid_str (ObjId n)) = 24%nat.
Proof.
  unfold docid_str, PyStr.hex.
  now rewrite length_map, HexFacts.nibbles_length, HexFacts.be_bytes_length.
Qed.

Lemma round_key_docid_str (n : Z) :
  0 <= n < 2 ^ 96 -> round_key (docid_str (ObjId n)) = Ok (ObjId n).
Proof.
  intros Hn. unfold round_key, object_id. rewrite docid_str_length. cbn [Nat.eqb].
  unfold docid_str. rewrite (int16_hex_be_bytes 12 n); [reflexivity | lia | exact Hn].
Qed.

(** X6. An ObjectId survives the trip through its string: for every id
    below 2^96, [ObjectId(str(i))] is [i] again, so the id a handler returns
    names the document it stored. *)
Theorem object_id_round_trip (n : Z) :
  0 <= n < 2 ^ 96 -> object_id (docid_str (ObjId n)) = Ok (ObjId n).
Proof.
  intros Hn. unfold object_id. rewrite docid_str_length. cbn [Nat.eqb].
  unfold docid_str. rewrite (int16_hex_be_bytes 12 n); [reflexivity | lia | exact Hn].
Qed.

Lemma docid_eqb_refl (i : docid) : docid_eqb i i = true.
Proof.
  destruct i as [n | s]; simpl; [apply Z.eqb_refl|].
  induction s as [|c s IH]; simpl; [reflexivity|]. now rewrite Z.eqb_refl.
Qed.

Lemma find_doc_app_new {D : Type} (i : docid) (d : D) (docs : list (docid * D)) :
  find_doc i docs = None -> find_doc i (docs ++ [(i, d)]) = Some d.
Proof.
  induction docs as [|[j e] docs IH]; simpl.
  - now rewrite docid_eqb_refl.
  - destruct (docid_eqb j i); [discriminate | exact IH].
Qed.

(** X7. A created round can be addressed by the id returned: when the store
    answers, [create_round] followed by [update_round_status] on the id of
    the response gives the new round the requested status and leaves its
    crash point as answered. *)
Theorem created_round_is_addressable
    (w : World) (req : CreateRoundRequest.t) (status : pystr) (s : Store) :
  db w = Some s ->
  hd false (faults w) = false -> hd false (tl (faults w)) = false ->
  0 <= next_oid w < 2 ^ 96 ->
  find_doc (ObjId (next_oid w)) (crashround s) = None ->
  exists r w1 w2 s2 doc,
    create_round req w = (Ok r, w1) /\
    update_round_status (RoundInfo.id r) status w1 = (Ok true, w2) /\
    db w2 = Some s2 /\
    find_doc (ObjId (next_oid w)) (crashround s2) = Some doc /\
    CrashRound.status doc = status /\
    CrashRound.crash_at doc = RoundInfo.crash_at r /\
    crashbet s2 = crashbet s.
Proof.
  intros Hdb Hf1 Hf2 Hn Hfresh.
  destruct (seed_crash_point w) as [c Hc].
  rewrite (create_round_run req w c Hc). cbv zeta. rewrite Hdb, Hf1.
  eexists. eexists. eexists. eexists. eexists.
  split; [reflexivity|].
  rewrite update_round_status_run.
  cbn [db with_store bump_oid drop_fault drop_entropy faults RoundInfo.id].
  rewrite (round_key_docid_str _ Hn), Hf2.
  split; [reflexivity|]. split; [reflexivity|].
  cbn [crashround crashbet]. rewrite find_update_one, (find_doc_app_new _ _ _ Hfresh).
  repeat split.
Qed.

End IdRoundTrip.

(* ------------------------------------------------------------------------- *)
(** ** A placement and the cashout that follows *)

Section PlaceThenCashout.

Lemma pystr_eqb_refl (s : pystr) : PyStr.eqb s s = true.
Proof. induction s as [|c s IH]; simpl; [reflexivity|]. now rewrite Z.eqb_refl. Qed.


Lemma latest_bet_app (r p : pystr) (docs : list (docid * CrashBet.t))
    (i : docid) (b : CrashBet.t) :
  forall best,
  latest_bet r p (docs ++ [(i, b)]) best =
  if PyStr.eqb (CrashBet.round_id b) r && PyStr.eqb (CrashBet.player_id b) p
  then Some (i, b) else latest_bet r p docs best.
Proof.
  induction docs as [|[j d] docs IH]; intros best; [reflexivity|].
  cbn [app latest_bet]. apply IH.
Qed.

(** X8. A cashout settles the bet placed last: when the store answers, a
    cashout by the player right after a placement answers the profit of the
    bet just placed, [round(amount * max(0, m - 1), 2)], whatever older bets
    the player has on the round. *)
Theorem cashout_settles_latest_placement
    (w : World) (round_id : pystr) (req : PlaceBetRequest.t) (m : float) (s : Store) :
  db w = Some s ->
  hd false (faults w) = false -> hd false (tl (faults w)) = false ->
  exists i w1 w2,
    place_bet round_id req w = (Ok i, w1) /\
    cashout round_id (CashoutRequest.mk (PlaceBetRequest.player_id req)) m w1
      = (Ok (Some (cashout_profit (PlaceBetRequest.amount req) m)), w2).
Proof.
  intros Hdb Hf1 Hf2. rewrite place_bet_run, Hdb, Hf1.
  eexists. eexists. eexists. split; [reflexivity|].
  rewrite cashout_run.
  cbn [db with_store bump_oid drop_fault faults crashbet CashoutRequest.player_id].
  rewrite Hf2, latest_bet_app.
  cbn [new_bet CrashBet.round_id CrashBet.player_id CrashBet.amount].
  rewrite !pystr_eqb_refl. cbn [andb]. cbv zeta. reflexivity.
Qed.

End PlaceThenCashout.
(* ------------------------------------------------------------------------- *)
(** ** What a cashout leaves alone *)

Section CashoutFrame.







(** X10. A profit can be answered without being stored: [profit] is
    computed before the update is sent, so when the lookup succeeds and the
    update raises, the response carries the profit while the store is left
    exactly as it was. *)
Theorem cashout_answers_unstored_profit
    (w : World) (round_id : pystr) (req : CashoutRequest.t) (m : float)
    (s : Store) (i : docid) (bet : CrashBet.t) :
  db w = Some s ->
  hd false (faults w) = false -> hd false (tl (faults w)) = true ->
  latest_bet round_id (CashoutRequest.player_id req) (crashbet s) None = Some (i, bet) ->
  exists w',
    cashout round_id req m w = (Ok (Some (cashout_profit (CrashBet.amount bet) m)), w') /\
    db w' = db w.
Proof.
  intros Hdb Hf1 Hf2 Hbet. rewrite cashout_run, Hdb, Hf1, Hbet. cbv zeta. rewrite Hf2.
  eexists. split; [reflexivity|]. cbn [db drop_fault]. now rewrite Hdb.
Qed.

(** X11. A bet placed while the store was unreachable cannot be cashed
    out: the placement answers an id but stores nothing, and unless the
    player already had a bet on the round, the cashout that follows answers
    no profit. *)
Theorem ephemeral_bet_has_no_cashout
    (w : World) (round_id : pystr) (req : PlaceBetRequest.t) (m : float) (s : Store) :
  db w = Some s -> hd false (faults w) = true ->
  latest_bet round_id (PlaceBetRequest.player_id req) (crashbet s) None = None ->
  exists i w1 w2,
    place_bet round_id req w = (Ok i, w1) /\
    cashout round_id (CashoutRequest.mk (PlaceBetRequest.player_id req)) m w1
      = (Ok None, w2) /\
    db w2 = db w.
Proof.
  intros Hdb Hf Hnone. rewrite place_bet_run, Hdb, Hf.
  eexists. eexists. eexists. split; [reflexivity|].
  rewrite cashout_run. cbn [db drop_entropy drop_fault faults CashoutRequest.player_id].
  rewrite Hdb. destruct (hd false (tl (faults w))).
  - split; [reflexivity|]. cbn [db drop_fault drop_entropy]. exact Hdb.
  - rewrite Hnone. split; [reflexivity|]. cbn [db drop_fault drop_entropy]. exact Hdb.
Qed.

End CashoutFrame.

(* ------------------------------------------------------------------------- *)
(** ** Ids that name no round *)

Section ForeignIds.



End ForeignIds.

(* ------------------------------------------------------------------------- *)
(** ** The current round *)

Section CurrentRound.

Lemma newest_active_none (docs : list (docid * CrashRound.t)) :
  forall best,
  newest_active docs best = None ->
  best = None /\ Forall (fun d => is_active (CrashRound.status (snd d)) = false) docs.
Proof.
  induction docs as [|[j d] docs IH]; intros best H; simpl in H; [now split|].
  apply IH in H. destruct H as [Hb Hdocs].
  destruct (is_active (CrashRound.status d)) eqn:E.
  - destruct best as [[j0 d0]|]; [|discriminate].
    destruct (CrashRound.start_time d0 <? CrashRound.start_time d)%float; discriminate.
  - split; [exact Hb | constructor; [exact E | exact Hdocs]].
Qed.

(** X13. With a scheduled or running round in a store that answers,
    [get_current_round] only reads: it answers one of the stored scheduled or
    running rounds, creates nothing, draws no random number, and leaves the
    store as it was. *)
Theorem current_round_only_reads (w : World) (s : Store) :
  db w = Some s -> hd false (faults w) = false ->
  Exists (fun d => is_active (CrashRound.status (snd d)) = true) (crashround s) ->
  exists i doc,
    In (i, doc) (crashround s) /\ is_active (CrashRound.status doc) = true /\
    get_current_round w = (Ok (info_of i doc), drop_fault w) /\
    db (drop_fault w) = db w /\ entropy (drop_fault w) = entropy w.
Proof.
  intros Hdb Hf Hex. rewrite get_current_round_run, Hdb, Hf.
  destruct (newest_active (crashround s) None) as [[i doc]|] eqn:Hfind.
  - destruct (newest_active_found (crashround s) None i doc) as [Hact [Hin | Habs]];
      [discriminate | exact Hfind | | discriminate].
    exists i, doc. repeat split; assumption.
  - apply newest_active_none in Hfind. destruct Hfind as [_ Hall].
    exfalso. rewrite Forall_forall in Hall. apply Exists_exists in Hex.
    destruct Hex as [d [Hin Hact]]. rewrite (Hall d Hin) in Hact. discriminate.
Qed.

(** X14. With no scheduled or running round in a store that answers,
    [get_current_round] creates one with the default request: the response is
    a scheduled round starting 2.0 seconds from now, and the round is stored
    with growth constant 0.25 after the rounds already there. *)
Theorem current_round_created_by_default (w : World) (s : Store) :
  db w = Some s ->
  hd false (faults w) = false -> hd false (tl (faults w)) = false ->
  Forall (fun d => is_active (CrashRound.status (snd d)) = false) (crashround s) ->
  exists r w' doc,
    get_current_round w = (Ok r, w') /\
    RoundInfo.status r = scheduled /\
    RoundInfo.start_time r = (now w + 2.0)%float /\
    RoundInfo.id r = docid_str (ObjId (next_oid w)) /\
    rounds_of w' = crashround s ++ [(ObjId (next_oid w), doc)] /\
    CrashRound.k doc = 0.25%float /\
    CrashRound.start_time doc = (now w + 2.0)%float /\
    CrashRound.crash_at doc = RoundInfo.crash_at r /\
    CrashRound.status doc = scheduled.
Proof.
  intros Hdb Hf1 Hf2 Hnone. rewrite get_current_round_run, Hdb, Hf1.
  assert (Hfind : newest_active (crashround s) None = None).
  { destruct (newest_active (crashround s) None) as [[i doc]|] eqn:E; [|reflexivity].
    destruct (newest_active_found (crashround s) None i doc) as [Hact [Hin | Habs]];
      [discriminate | exact E | | discriminate].
    rewrite Forall_forall in Hnone. specialize (Hnone _ Hin). cbn [snd] in Hnone.
    rewrite Hnone in Hact. discriminate. }
  rewrite Hfind.
  destruct (seed_crash_point (drop_fault w)) as [c Hc].
  rewrite (create_round_run _ _ c Hc). cbv zeta.
  cbn [db drop_fault faults]. rewrite Hdb, Hf2.
  eexists. eexists. eexists. split; [reflexivity|].
  unfold rounds_of. cbn [db with_store crashround RoundInfo.status RoundInfo.start_time
                         RoundInfo.id RoundInfo.crash_at next_oid bump_oid drop_fault
                         drop_entropy].
  repeat split.
Qed.

End CurrentRound.
(* ------------------------------------------------------------------------- *)
(** ** The sign of a profit *)

Module SignFacts.

Local Open Scope float_scope.

Lemma binary_round_aux_sign (mx ex : Z) (lx : location) :
  sf_not_negative (binary_round_aux prec emax false mx ex lx).
Proof.
  unfold binary_round_aux.
  destruct (shr_fexp prec emax mx ex lx) as [mrs' e'].
  destruct (shr_fexp prec emax (round_nearest_even (shr_m mrs') (loc_of_shr_record mrs'))
              e' loc_Exact) as [mrs'' e''].
  destruct (shr_m mrs'') as [| p | p]; [exact I | | exact I].
  destruct (e'' <=? emax - prec)%Z; reflexivity.
Qed.

Lemma binary_round_sign (mx : positive) (ex : Z) :
  sf_not_negative (binary_round prec emax false mx ex).
Proof.
  unfold binary_round.
  destruct (shl_align mx ex (fexp prec emax (Zpos (digits2_pos mx) + ex))) as [mz ez].
  apply binary_round_aux_sign.
Qed.

Lemma SFmul_sign (x y : spec_float) :
  sf_not_negative x -> sf_not_negative y -> sf_not_negative (SFmul prec emax x y).
Proof.
  destruct x as [sx | sx | | sx mx ex], y as [sy | sy | | sy my ey]; simpl;
    intros Hx Hy; subst; simpl; auto.
  apply binary_round_aux_sign.
Qed.

Lemma not_negative_not_below_zero (x : spec_float) :
  sf_not_negative x -> SFltb x (S754_zero false) = false.
Proof. destruct x as [s | s | | s m e]; simpl; intros H; subst; reflexivity. Qed.

Lemma not_below_zero_sign (a : float) :
  (a <? 0) = false -> sf_not_negative (Prim2SF a).
Proof.
  rewrite ltb_spec. change (Prim2SF 0) with (S754_zero false).
  destruct (Prim2SF a) as [s | s | | s m e]; simpl; auto; destruct s; auto; discriminate.
Qed.

Lemma above_zero_sign (y : float) :
  (0 <? y) = true -> sf_not_negative (Prim2SF y).
Proof.
  rewrite ltb_spec. change (Prim2SF 0) with (S754_zero false).
  destruct (Prim2SF y) as [s | s | | s m e]; simpl; auto; destruct s; auto; discriminate.
Qed.

Lemma SF2Prim_sign (z : spec_float) :
  sf_not_negative z -> sf_not_negative (Prim2SF (SF2Prim z)).
Proof.
  destruct z as [s | s | | s m e]; simpl; intros H; subst.
  - destruct s; exact I.
  - reflexivity.
  - exact I.
  - rewrite Z_ldexp_spec, of_uint63_spec.
    match goal with
    | |- context [Uint63Axioms.to_Z ?x] =>
        pose proof (Uint63.to_Z_bounded x) as Hb;
        destruct (Uint63Axioms.to_Z x) as [| p | p]; [exact I | | lia]
    end.
    cbn [binary_normalize].
    pose proof (binary_round_sign p 0) as Hs.
    destruct (binary_round prec emax false p 0) as [s' | s' | | s' m' e']; simpl; auto.
    simpl in Hs. subst s'. apply binary_round_sign.
Qed.

Lemma round2_sign (p : float) :
  sf_not_negative (Prim2SF p) -> sf_not_negative (Prim2SF (PyFloat.round2 p)).
Proof.
  intros H. unfold PyFloat.round2.
  destruct (Prim2SF p) as [s | s | | s m e] eqn:E; try (rewrite E; exact H).
  simpl in H. subst s.
  destruct (PyFloat.cents m e) as [| n | n]; try exact I.
  apply SF2Prim_sign. unfold SFdiv.
  destruct (SFdiv_core_binary prec emax (Zpos n) 0 100 0) as [[mz ez] lz].
  apply binary_round_aux_sign.
Qed.

End SignFacts.

Section ProfitSign.

Local Open Scope float_scope.

(** X15. A profit is never negative: for a stake that is not below zero,
    whatever multiplier is asserted (below 1.0, infinite and nan included),
    [round(amount * max(0.0, m - 1.0), 2)] is not below zero.  No cashout
    records a loss. *)
Theorem cashout_profit_not_negative (amount m : float) :
  (amount <? 0) = false -> (cashout_profit amount m <? 0) = false.
Proof.
  intros Ha. unfold cashout_profit.
  rewrite ltb_spec. change (Prim2SF 0) with (S754_zero false).
  apply SignFacts.not_negative_not_below_zero, SignFacts.round2_sign.
  rewrite mul_spec. apply SignFacts.SFmul_sign.
  - now apply SignFacts.not_below_zero_sign.
  - unfold PyFloat.max. destruct (0 <? m - 1) eqn:E.
    + now apply SignFacts.above_zero_sign.
    + exact I.
Qed.

End ProfitSign.

(* ------------------------------------------------------------------------- *)
(** ** The crash point, in hundredths *)

Section Hundredths.

Local Open Scope float_scope.

Lemma two_decimals_quotients :
  forallb (fun n => Leibniz.eqb (two_decimals (Z.of_nat n))
                      (PyFloat.of_int (Z.of_nat n) / 100))
    (seq 101 4900) = true.
Proof. vm_compute. reflexivity. Qed.

Lemma two_decimals_quotient (n : Z) :
  (101 <= n <= 5000)%Z -> two_decimals n = PyFloat.of_int n / 100.
Proof.
  intros Hn.
  pose proof two_decimals_quotients as T. rewrite forallb_forall in T.
  specialize (T (Z.to_nat n)). rewrite Z2Nat.id in T by lia.
  apply Leibniz.eqb_spec, T, in_seq. lia.
Qed.

Lemma round2_clamped_decimal (y : float) :
  (1.01 <? y) = true -> (50.0 <? y) = false ->
  exists n, (101 <= n <= 5000)%Z /\ PyFloat.round2 y = two_decimals n.
Proof.
  rewrite !ltb_spec, FloatFacts.sf_1_01, FloatFacts.sf_50. intros Hlo Hhi.
  pose proof (Prim2SF_valid y) as Hv.
  unfold PyFloat.round2.
  destruct (Prim2SF y) as [s | s | | s m e]; try discriminate Hlo.
  - destruct s; [discriminate Hlo | discriminate Hhi].
  - destruct s; [discriminate Hlo|].
    pose proof (FloatFacts.cents_clamped m e Hv Hlo Hhi) as Hc.
    destruct (PyFloat.cents m e) as [| n | n] eqn:E; try lia.
    exists (Zpos n). split; [exact Hc | reflexivity].
Qed.

(** X16. The crash point is a whole number of hundredths: every value
    [crash_point_from_seed] returns is [float(n) / 100] for an integer [n]
    from 101 to 5000, the binary64 number nearest to a two-decimal figure
    between 1.01 and 50.00. *)
Theorem crash_point_is_hundredths (server_seed : pystr) (v : float) :
  crash_point_from_seed server_seed = Ok v ->
  exists n, (101 <= n <= 5000)%Z /\ v = PyFloat.of_int n / 100.
Proof.
  intros Hv.
  destruct (PyStr.encode server_seed) as [key | e] eqn:Henc.
  - destruct (crash_point_of_key server_seed key Henc) as [r [_ [_ Hr]]].
    rewrite Hr in Hv. injection Hv as <-.
    unfold PyFloat.max, PyFloat.min.
    destruct (50.0 <? raw_multiplier r) eqn:Hhi.
    + exists 5000%Z. split; [lia | vm_compute; reflexivity].
    + destruct (1.01 <? raw_multiplier r) eqn:Hlo.
      * destruct (round2_clamped_decimal _ Hlo Hhi) as [n [Hn ->]].
        exists n. split; [exact Hn | now apply two_decimals_quotient].
      * exists 101%Z. split; [lia | vm_compute; reflexivity].
  - destruct (crash_point_encode_error server_seed e Henc) as [_ Hr].
    rewrite Hr in Hv. discriminate Hv.
Qed.

End Hundredths.

(* ------------------------------------------------------------------------- *)
(** ** The seeds that have a crash point *)

Section Seeds.

Lemma utf8_char_defined (c : Z) :
  (exists bs, PyStr.utf8_char c = Some bs) <-> scalar_value c.
Proof.
  unfold PyStr.utf8_char, PyStr.is_surrogate, scalar_value.
  destruct (Z.ltb_spec c 0) as [H0 | H0].
  { split; [intros [bs Hbs]; discriminate Hbs | intros Hx; exfalso; lia]. }
  destruct (Z.ltb_spec c 0x80) as [H1 | H1].
  { split; [intros _; lia | intros _; eexists; reflexivity]. }
  destruct (Z.ltb_spec c 0x800) as [H2 | H2].
  { split; [intros _; lia | intros _; eexists; reflexivity]. }
  destruct (Z.ltb_spec c 0x10000) as [H3 | H3].
  - destruct (Z.leb_spec 0xD800 c) as [Ha | Ha];
      destruct (Z.leb_spec c 0xDFFF) as [Hb | Hb]; cbn [andb]; split; intros Hx;
      first [ destruct Hx as [bs Hbs]; discriminate Hbs
            | eexists; reflexivity
            | lia
            | exfalso; lia ].
  - destruct (Z.ltb_spec c 0x110000) as [H4 | H4]; split; intros Hx;
      first [ destruct Hx as [bs Hbs]; discriminate Hbs
            | eexists; reflexivity
            | lia
            | exfalso; lia ].
Qed.

Lemma encode_defined (s : pystr) :
  (exists key, PyStr.encode s = Ok key) <-> Forall scalar_value s.
Proof.
  induction s as [|c s IH]; simpl.
  - split; [constructor | eexists; reflexivity].
  - split.
    + intros [key H].
      destruct (PyStr.utf8_char c) as [bs|] eqn:Ec; [|discriminate].
      destruct (PyStr.encode s) as [rest | e]; [|discriminate].
      constructor.
      * apply utf8_char_defined. now exists bs.
      * apply IH. now exists rest.
    + intros H. inversion H as [|? ? Hc Hs]; subst.
      apply utf8_char_defined in Hc. destruct Hc as [bs ->].
      apply IH in Hs. destruct Hs as [rest ->]. eexists; reflexivity.
Qed.

(** X17. The seeds with a crash point are the strings of Unicode scalar
    values: [crash_point_from_seed] returns a value exactly when no code
    point of the seed is a surrogate; on every other string it raises. *)
Theorem crash_point_defined_iff (server_seed : pystr) :
  (exists v, crash_point_from_seed server_seed = Ok v) <-> Forall scalar_value server_seed.
Proof.
  rewrite <- encode_defined. split.
  - intros [v Hv]. destruct (PyStr.encode server_seed) as [key | e] eqn:Henc.
    + now exists key.
    + destruct (crash_point_encode_error server_seed e Henc) as [_ Hr].
      rewrite Hr in Hv. discriminate Hv.
  - intros [key Hkey].
    destruct (crash_point_of_key server_seed key Hkey) as [r [_ [_ Hr]]].
    eexists; exact Hr.
Qed.

End Seeds.
(* ------------------------------------------------------------------------- *)
(** ** The database diagnosis *)

Section DiagnosisFacts.

Import Diagnosis.

(** X18. The diagnosis reports the environment, not the database, under
    [database_url] and [database_name]: each is the check-marked "Set" when
    its variable is set and not empty and the cross-marked "Not Set"
    otherwise, whatever [db] is; the name of the database and the
    "Configured" mark written earlier never reach the response. *)
Theorem test_database_reports_environment
    (db1 db2 : option database) (env : environ) :
  database_url (test_database db1 env) = database_url (test_database db2 env) /\
  database_name (test_database db1 env) = database_name (test_database db2 env) /\
  database_url (test_database db1 env) =
    Some (if truthy (DATABASE_URL env) then check_mark ++ PyStr.lit " Set"
          else cross_mark ++ PyStr.lit " Not Set") /\
  database_name (test_database db1 env) =
    Some (if truthy (DATABASE_NAME env) then check_mark ++ PyStr.lit " Set"
          else cross_mark ++ PyStr.lit " Not Set").
Proof. repeat split. Qed.

(** X19. The diagnosis lists at most ten collections, the first ones the
    database names, in order; it lists none when there is no database or the
    listing fails, and says "Connected" exactly when there is a database,
    listing or not. *)
Theorem test_database_lists_first_ten (db : option database) (env : environ) :
  (List.length (collections (test_database db env)) <= 10)%nat /\
  (exists rest,
     match db with
     | Some d =>
         match list_collection_names d with
         | Listed names => names = collections (test_database db env) ++ rest
         | ListingFailed _ => collections (test_database db env) = []
         end
     | None => collections (test_database db env) = []
     end) /\
  (connection_status (test_database db env) = PyStr.lit "Connected" <-> db <> None).
Proof.
  destruct db as [d|]; cbn [test_database]; unfold test_database.
  - destruct (list_collection_names d) as [names | message] eqn:E;
      cbn [collections set_database_name set_database_url set_database set_collections
           set_connection_status connection_status].
    + split; [apply firstn_le_length|]. split.
      * exists (skipn 10 names). symmetry. apply firstn_skipn.
      * split; [discriminate | reflexivity].
    + split; [simpl; lia|]. split; [now exists [] |].
      split; [discriminate | reflexivity].
  - cbn [collections set_database_name set_database_url set_database set_collections
         set_connection_status connection_status].
    split; [simpl; lia|]. split; [now exists [] |].
    split; [intros H; vm_compute in H; discriminate H | intros H; now elim H].
Qed.

(** X20. A failed listing is reported in fifty characters at most: the
    "database" message is then the warning text followed by the first fifty
    characters of the exception's message, and nothing else of it. *)
Theorem test_database_truncates_error
    (d : database) (env : environ) (message : pystr) :
  list_collection_names d = ListingFailed message ->
  database_status (test_database (Some d) env) =
    warning_sign ++ PyStr.lit "  Connected but Error: " ++ firstn 50 message /\
  (List.length (database_status (test_database (Some d) env)) <= 25 + 50)%nat /\
  (List.length message <= 50 ->
   database_status (test_database (Some d) env) =
     warning_sign ++ PyStr.lit "  Connected but Error: " ++ message)%nat.
Proof.
  intros E. unfold test_database. rewrite E.
  cbn [database_status set_database_name set_database_url set_database].
  split; [reflexivity|]. split.
  - rewrite !length_app. pose proof (firstn_le_length 50 message).
    change (List.length warning_sign) with 2%nat.
    change (List.length (PyStr.lit "  Connected but Error: ")) with 23%nat. lia.
  - intros Hlen. now rewrite firstn_all2.
Qed.

End DiagnosisFacts.
(* ------------------------------------------------------------------------- *)
(** ** The growth constant of a created round *)

Section GrowthConstant.

Local Open Scope float_scope.

(** X21. A created round never has a zero growth constant: when the store
    answers, the round [create_round] stores has the requested [k] if that
    is not zero, and 0.25 when [k] is null or zero (of either sign); nothing
    else is checked, so a negative [k] is stored as given. *)
Theorem created_round_growth_not_zero
    (w : World) (req : CreateRoundRequest.t) (s : Store) :
  db w = Some s -> hd false (faults w) = false ->
  exists r w' doc,
    create_round req w = (Ok r, w') /\
    rounds_of w' = crashround s ++ [(ObjId (next_oid w), doc)] /\
    is_zero (CrashRound.k doc) = false /\
    (forall k, CreateRoundRequest.k req = Some k -> is_zero k = false ->
               CrashRound.k doc = k) /\
    (forall k, CreateRoundRequest.k req = Some k -> is_zero k = true ->
               CrashRound.k doc = 0.25) /\
    (CreateRoundRequest.k req = None -> CrashRound.k doc = 0.25).
Proof.
  intros Hdb Hf. destruct (seed_crash_point w) as [c Hc].
  rewrite (create_round_run req w c Hc). cbv zeta. rewrite Hdb, Hf.
  eexists. eexists. eexists. split; [reflexivity|].
  unfold rounds_of. cbn [db with_store crashround]. split; [reflexivity|].
  cbn [new_round CrashRound.k]. unfold or_else.
  destruct (CreateRoundRequest.k req) as [k|].
  - destruct (is_zero k) eqn:E.
    + split; [reflexivity|]. split; [|split].
      * intros k' Hk Hz. injection Hk as <-. congruence.
      * reflexivity.
      * discriminate.
    + split; [exact E|]. split; [|split].
      * intros k' Hk _. now injection Hk as <-.
      * intros k' Hk Hz. injection Hk as <-. congruence.
      * discriminate.
  - split; [reflexivity|]. split; [|split]; try discriminate. reflexivity.
Qed.

End GrowthConstant.

(* ------------------------------------------------------------------------- *)
(** ** Instances in the scenario *)

Section Instances.

Local Open Scope float_scope.

Lemma rounds_stay_verifiable_witness :
  Forall (fun d => verifiable (snd d))
    (rounds_of (snd (serve ScenarioMore.visit Scenario.w_scheduled))).
Proof.
  apply (rounds_stay_verifiable ScenarioMore.visit Scenario.w_scheduled).
  constructor; [vm_compute; reflexivity | constructor].
Defined.

Lemma bets_stay_settled_together_witness :
  Forall (fun b => settled_together (snd b))
    (bets_of (snd (serve ScenarioMore.visit Scenario.w_bet))).
Proof.
  apply (bets_stay_settled_together ScenarioMore.visit Scenario.w_bet).
  constructor; [split; reflexivity | constructor].
Defined.

Lemma object_id_round_trip_witness :
  object_id (docid_str (ObjId 0x65f1a2b3c4d5e6f708192a3b))
  = Ok (ObjId 0x65f1a2b3c4d5e6f708192a3b).
Proof. apply (object_id_round_trip 0x65f1a2b3c4d5e6f708192a3b). lia. Defined.

Lemma created_round_is_addressable_witness :
  exists r w1 w2 s2 doc,
    create_round CreateRoundRequest.default Scenario.w0 = (Ok r, w1) /\
    update_round_status (RoundInfo.id r) running w1 = (Ok true, w2) /\
    db w2 = Some s2 /\
    find_doc (ObjId (next_oid Scenario.w0)) (crashround s2) = Some doc /\
    CrashRound.status doc = running /\
    CrashRound.crash_at doc = RoundInfo.crash_at r /\
    crashbet s2 = crashbet Scenario.store0.
Proof.
  apply (created_round_is_addressable Scenario.w0 CreateRoundRequest.default running
           Scenario.store0); try reflexivity.
  simpl; lia.
Defined.

Lemma cashout_settles_latest_placement_witness :
  exists i w1 w2,
    place_bet Scenario.rid Scenario.stake Scenario.w_bet = (Ok i, w1) /\
    cashout Scenario.rid
      (CashoutRequest.mk (PlaceBetRequest.player_id Scenario.stake)) 2.0 w1
      = (Ok (Some (cashout_profit (PlaceBetRequest.amount Scenario.stake) 2.0)), w2).
Proof.
  destruct (db Scenario.w_bet) as [s|] eqn:Hdb; [|discriminate Hdb].
  apply (cashout_settles_latest_placement Scenario.w_bet Scenario.rid Scenario.stake 2.0 s
           Hdb); reflexivity.
Defined.


Lemma cashout_answers_unstored_profit_witness :
  exists w',
    cashout Scenario.rid Scenario.alice 2.0 ScenarioMore.w_flaky
      = (Ok (Some (cashout_profit 10.0 2.0)), w') /\
    db w' = db ScenarioMore.w_flaky.
Proof.
  destruct (db ScenarioMore.w_flaky) as [s|] eqn:Hdb; [|discriminate Hdb].
  vm_compute in Hdb. injection Hdb as <-.
  refine (cashout_answers_unstored_profit ScenarioMore.w_flaky Scenario.rid Scenario.alice
            2.0 _ (ObjId 2) _ eq_refl eq_refl eq_refl eq_refl).
Defined.

Lemma ephemeral_bet_has_no_cashout_witness :
  exists i w1 w2,
    place_bet Scenario.rid Scenario.stake w_down = (Ok i, w1) /\
    cashout Scenario.rid
      (CashoutRequest.mk (PlaceBetRequest.player_id Scenario.stake)) 2.0 w1
      = (Ok None, w2) /\
    db w2 = db w_down.
Proof.
  apply (ephemeral_bet_has_no_cashout w_down Scenario.rid Scenario.stake 2.0
           Scenario.store0); reflexivity.
Defined.


Lemma current_round_only_reads_witness :
  exists i doc,
    In (i, doc) (rounds_of Scenario.w_scheduled) /\
    is_active (CrashRound.status doc) = true /\
    get_current_round Scenario.w_scheduled
      = (Ok (info_of i doc), drop_fault Scenario.w_scheduled) /\
    db (drop_fault Scenario.w_scheduled) = db Scenario.w_scheduled /\
    entropy (drop_fault Scenario.w_scheduled) = entropy Scenario.w_scheduled.
Proof.
  destruct (db Scenario.w_scheduled) as [s|] eqn:Hdb; [|discriminate Hdb].
  vm_compute in Hdb. injection Hdb as <-.
  refine (current_round_only_reads Scenario.w_scheduled _ eq_refl eq_refl _).
  left. reflexivity.
Defined.

Lemma current_round_created_by_default_witness :
  exists r w' doc,
    get_current_round Scenario.w_crashed = (Ok r, w') /\
    RoundInfo.status r = scheduled /\
    RoundInfo.start_time r = now Scenario.w_crashed + 2.0 /\
    RoundInfo.id r = docid_str (ObjId (next_oid Scenario.w_crashed)) /\
    rounds_of w' = rounds_of Scenario.w_crashed
                   ++ [(ObjId (next_oid Scenario.w_crashed), doc)] /\
    CrashRound.k doc = 0.25 /\
    CrashRound.start_time doc = now Scenario.w_crashed + 2.0 /\
    CrashRound.crash_at doc = RoundInfo.crash_at r /\
    CrashRound.status doc = scheduled.
Proof.
  destruct (db Scenario.w_crashed) as [s|] eqn:Hdb; [|discriminate Hdb].
  vm_compute in Hdb. injection Hdb as <-.
  refine (current_round_created_by_default Scenario.w_crashed _ eq_refl eq_refl eq_refl _).
  constructor; [reflexivity | constructor].
Defined.

Lemma cashout_profit_not_negative_witness :
  (cashout_profit 10.0 0.5 <? 0) = false.
Proof. apply (cashout_profit_not_negative 10.0 0.5). reflexivity. Defined.

Lemma crash_point_is_hundredths_witness :
  exists n, (101 <= n <= 5000)%Z /\ 22.7 = PyFloat.of_int n / 100.
Proof.
  apply (crash_point_is_hundredths (PyStr.lit "abc") 22.7). vm_compute. reflexivity.
Defined.

Lemma test_database_truncates_error_witness :
  Diagnosis.database_status (test_database (Some ScenarioMore.broken) ScenarioMore.no_environ) =
    Diagnosis.warning_sign ++ PyStr.lit "  Connected but Error: "
    ++ firstn 50 (PyStr.lit "ServerSelectionTimeoutError: localhost:27017: [Errno 111] Connection refused") /\
  (List.length (Diagnosis.database_status
                  (test_database (Some ScenarioMore.broken) ScenarioMore.no_environ))
   <= 25 + 50)%nat /\
  (List.length (PyStr.lit "ServerSelectionTimeoutError: localhost:27017: [Errno 111] Connection refused") <= 50 ->
   Diagnosis.database_status (test_database (Some ScenarioMore.broken) ScenarioMore.no_environ) =
     Diagnosis.warning_sign ++ PyStr.lit "  Connected but Error: "
     ++ PyStr.lit "ServerSelectionTimeoutError: localhost:27017: [Errno 111] Connection refused")%nat.
Proof.
  apply (test_database_truncates_error ScenarioMore.broken ScenarioMore.no_environ).
  reflexivity.
Defined.

Lemma created_round_growth_not_zero_witness :
  exists r w' doc,
    create_round (CreateRoundRequest.mk (Some 0) None) Scenario.w0 = (Ok r, w') /\
    rounds_of w' = crashround Scenario.store0 ++ [(ObjId (next_oid Scenario.w0), doc)] /\
    is_zero (CrashRound.k doc) = false /\
    (forall k, CreateRoundRequest.k (CreateRoundRequest.mk (Some 0) None) = Some k ->
               is_zero k = false -> CrashRound.k doc = k) /\
    (forall k, CreateRoundRequest.k (CreateRoundRequest.mk (Some 0) None) = Some k ->
               is_zero k = true -> CrashRound.k doc = 0.25) /\
    (CreateRoundRequest.k (CreateRoundRequest.mk (Some 0) None) = None ->
     CrashRound.k doc = 0.25).
Proof.
  apply (created_round_growth_not_zero Scenario.w0 (CreateRoundRequest.mk (Some 0) None)
           Scenario.store0); reflexivity.
Defined.

End Instances.
